(** * BIST100-Extractor: the ingestion pipeline, embedded and verified

    A shallow embedding of [src/bist_extractor/fetch.py] (the chart fetcher
    and the batch orchestrator) and of [src/bist_extractor/db.py] (the SQLite
    persistence layer), followed by the properties of the specification that
    hold of them and by closed evaluations where they do not.

    Conventions.
    - Python exceptions are values of [exn]; a call that may raise returns a
      [result].
    - The network is a [World]: what the n-th call of [sess.get] of a run
      gives, and the log of the calls made so far.  The clock, the uuid
      generator and the time-zone database are an [Env] and a [TzDb].
    - The conversions of pandas whose result depends on all the values of a
      list and on the version of the library are a [Pandas]; the index of a
      Series, the alignment of a column and the rounding to float64 are
      written out.
    - [time.sleep] and [random] only delay the run and are left out. *)

From Stdlib Require Import ZArith QArith String Ascii List Bool Lia Permutation.
From stdpp Require Import base option list gmap strings sorting.

Import ListNotations.
Open Scope string_scope.
Open Scope list_scope.

Set Warnings "-clear-no-such-hyp".

(* ===================================================================== *)
(** ** Python values: JSON documents and exceptions *)
(* ===================================================================== *)

(** What [json.loads] produces.  An object is the list of its members in
    document order; [dict_lookup] gives the last binding of a repeated key,
    as the parser does.  [JReal q] is a float, given by its value. *)
#[warnings="-register-all"]
Inductive json : Type :=
| JNull
| JBool (b : bool)
| JInt (z : Z)
| JReal (q : Q)
| JStr (s : string)
| JArr (items : list json)
| JObj (members : list (string * json)).

(** The exceptions the two modules raise or let through.  [RuntimeError] and
    [ValueError] carry the payload their message is formatted from. *)
#[warnings="-register-all"]
Inductive exn : Type :=
(* requests / urllib3 *)
| RequestException (what : string)         (* transport failure of [sess.get] *)
| HTTPError (status : Z)                   (* [r.raise_for_status()] *)
| JSONDecodeError                          (* [r.json()] *)
(* fetch_yahoo_chart *)
| FetchFailed (symbol : string) (last_exc : option exn)
                                           (* RuntimeError "Failed to fetch .. Last error: .." *)
| YahooApiError (symbol : string) (error : json)
                                           (* RuntimeError "Yahoo API error for .." *)
| EmptyResult (symbol : string)            (* RuntimeError "Empty 'result' for .." *)
| NoTimestamps (symbol : string)           (* ValueError "No timestamps for .." *)
(* the interpreter and pandas *)
| AttributeError (what : string)
| TypeError (what : string)
| KeyError (what : string)
| IndexError
| OutOfBoundsDatetime
(* ingest_prices *)
| MissingDatetimeColumn                    (* ValueError "DataFrame must include a 'datetime' column" *)
| MissingRequiredColumns (missing : list string)
                                           (* ValueError "Missing required columns: [..]" *)
| NotDatetimeLike                          (* the error of [pd.to_datetime] or of the [.dt] accessor *)
(* sqlite3 *)
| IntegrityError (what : string)
| ProgrammingError (what : string).

Inductive result (A : Type) : Type :=
| Ok (a : A)
| Err (e : exn).
Arguments Ok {A} a.
Arguments Err {A} e.

Definition bind {A B : Type} (r : result A) (k : A -> result B) : result B :=
  match r with
  | Ok a => k a
  | Err e => Err e
  end.

Notation "'do' x <- r ; k" := (bind r (fun x => k))
  (at level 10, x name, r at level 100, k at level 200).

(* ===================================================================== *)
(** ** Time: epoch instants and [strftime("%Y-%m-%d %H:%M:%S")] *)
(* ===================================================================== *)

(** pandas keeps an instant as nanoseconds since the epoch; the formatted
    string drops the fraction of a second. *)
Definition NS_PER_S : Z := 1000000000.

Definition digit (n : Z) : ascii := ascii_of_nat (48 + Z.to_nat (n mod 10)).

Definition pad2 (n : Z) : string :=
  String (digit (n / 10)) (String (digit n) EmptyString).

Definition pad4 (n : Z) : string :=
  String (digit (n / 1000)) (String (digit (n / 100)) (pad2 n)).

(** Civil date of a day number (days since 1970-01-01), proleptic Gregorian
    calendar. *)
Definition civil_from_days (days : Z) : Z * Z * Z :=
  let z := (days + 719468)%Z in
  let era := (z / 146097)%Z in
  let doe := (z - era * 146097)%Z in
  let yoe := ((doe - doe / 1460 + doe / 36524 - doe / 146096) / 365)%Z in
  let doy := (doe - (365 * yoe + yoe / 4 - yoe / 100))%Z in
  let mp := ((5 * doy + 2) / 153)%Z in
  let d := (doy - (153 * mp + 2) / 5 + 1)%Z in
  let m := (if (mp <? 10)%Z then mp + 3 else mp - 9)%Z in
  let y := (yoe + era * 400 + (if (m <=? 2)%Z then 1 else 0))%Z in
  (y, m, d).

(** [strftime] of a whole number of seconds since the epoch. *)
Definition strftime (secs : Z) : string :=
  let days := (secs / 86400)%Z in
  let sod := (secs mod 86400)%Z in
  let '(y, m, d) := civil_from_days days in
  pad4 y +:+ "-" +:+ pad2 m +:+ "-" +:+ pad2 d +:+ " " +:+
  pad2 (sod / 3600) +:+ ":" +:+ pad2 (sod mod 3600 / 60) +:+ ":" +:+ pad2 (sod mod 60).

(** [Series.dt.strftime] on one cell: [NaT] formats to a missing value. *)
Definition strftime_ns (t : option Z) : option string :=
  match t with
  | Some ns => Some (strftime (ns / NS_PER_S))
  | None => None
  end.

(** The time-zone database: the UTC offset, in seconds, that a zone observes
    at an instant given in epoch seconds. *)
Class TzDb := utcoffset : string -> Z -> Z.

(** [tz_convert(tz).tz_localize(None)]: the wall clock of an instant. *)
Definition wall_clock `{TzDb} (tz : string) (t : option Z) : option Z :=
  match t with
  | Some ns => Some (ns + utcoffset tz (ns / NS_PER_S) * NS_PER_S)%Z
  | None => None
  end.


(** The clock and the uuid generator a call reads. *)
Record Env := mkEnv {
  now : Z;            (* [datetime.now(UTC)], in epoch seconds *)
  uuid4 : string      (* [str(uuid.uuid4())] *)
}.

(* ===================================================================== *)
(** ** pandas: the table handed from the fetcher to the persistence layer *)
(* ===================================================================== *)

(** The dtype of the ['datetime'] column: tz-aware ([datetime64[ns, tz]]),
    naive ([datetime64[ns]]), or anything else ([object], as in the empty
    table [fetch_batch] builds when no symbol succeeded). *)
Inductive datetime_dtype : Type :=
| DatetimeTZ (tz : string)
| DatetimeNaive
| ObjectDtype.

(** One line of the table.  A cell is [None] where pandas has NaN, NaT, NA or
    None; the cell of a column the table does not have is never read.
    [c_datetime] is an instant in nanoseconds since the epoch for a tz-aware
    column, and a wall clock in nanoseconds for a naive one. *)
Record Row := mkRow {
  c_datetime : option Z;
  c_ticker : option string;
  c_open : option Q;
  c_high : option Q;
  c_low : option Q;
  c_close : option Q;
  c_volume : option Q;
  c_adjclose : option Q;
  c_range : option string;
  c_range_str : option string;
  c_interval : option string
}.

(** A table: the set of its column labels (labels are distinct, as in every
    table the fetcher builds), the dtype of ['datetime'], and its lines. *)
Record DataFrame := mkDataFrame {
  columns : gset string;             (* [df.columns] *)
  dtype_datetime : datetime_dtype;   (* [df["datetime"].dtype] *)
  rows : list Row
}.

(** [c in d.columns] *)
Definition has_column (d : DataFrame) (c : string) : bool :=
  bool_decide (c ∈ columns d).

(* ===================================================================== *)
(** ** db.py: the schema *)
(* ===================================================================== *)

Module Prices.
(** A row of [prices].  SQLite enforces [NOT NULL] when a row is written, so
    the row type itself lets every declared-nullable column be NULL, and
    [ticker] and [datetime_utc] too: [insert_checks] is what keeps NULL out
    of them. *)
Record row := mk {
    ticker : option string;          (* TEXT NOT NULL *)
    datetime_utc : option string;    (* TEXT NOT NULL *)
    datetime_local : option string;
    datetime_tr : option string;
    open : option Q;
    high : option Q;
    low : option Q;
    close : option Q;
    volume : option Q;
    adjclose : option Q;
    range_str : option string;
    interval : option string;        (* TEXT, no NOT NULL *)
    ingested_at : string;            (* TEXT NOT NULL *)
    run_id : string                  (* TEXT NOT NULL *)
}.
End Prices.

Module Runs.
Record row := mk {
    run_id : string;                 (* TEXT PRIMARY KEY *)
    started_at : string;
    rng : string;
    interval : string;
    n_rows : Z;
    note : option string
}.
End Runs.

(** The tables [init_db] creates that the price ingestion reads or writes
    ([meta] is written by [ingest_meta] only and is left out). *)
Record Database := mkDatabase {
  db_runs : list Runs.row;
  db_prices : list Prices.row
}.

(** [init_db]: every statement is [CREATE ... IF NOT EXISTS], so a file that
    has the tables keeps them as they are and a new file ([None]) gets them
    empty. *)
Definition init_db (file : option Database) : Database :=
  match file with
  | Some db => db
  | None => {| db_runs := []; db_prices := [] |}
  end.

Definition key := (string * string * string)%type.

(** [PRIMARY KEY (ticker, datetime_utc, interval)] on a rowid table is a unique
    index, and SQLite's unique indexes treat NULLs as distinct from each other:
    a row has an entry that can collide only when its three key columns are
    all non-NULL. *)
Definition unique_key (r : Prices.row) : option key :=
  match Prices.ticker r, Prices.datetime_utc r, Prices.interval r with
  | Some t, Some d, Some i => Some (t, d, i)
  | _, _, _ => None
  end.

Definition conflicts (new old : Prices.row) : bool :=
  match unique_key new with
  | Some k => bool_decide (unique_key old = Some k)
  | None => false
  end.

(** [ON CONFLICT(ticker, datetime_utc, interval) DO UPDATE SET ...]: the nine
    assignments of the statement; every other column keeps the stored
    value. *)
Definition do_update (old excluded : Prices.row) : Prices.row :=
  {| Prices.ticker := Prices.ticker old;
     Prices.datetime_utc := Prices.datetime_utc old;
     Prices.datetime_local := Prices.datetime_local old;
     Prices.datetime_tr := Prices.datetime_tr old;
     Prices.open := Prices.open excluded;
     Prices.high := Prices.high excluded;
     Prices.low := Prices.low excluded;
     Prices.close := Prices.close excluded;
     Prices.volume := Prices.volume excluded;
     Prices.adjclose := Prices.adjclose excluded;
     Prices.range_str := Prices.range_str excluded;
     Prices.interval := Prices.interval old;
     Prices.ingested_at := Prices.ingested_at excluded;
     Prices.run_id := Prices.run_id excluded |}.

(** One [INSERT ... ON CONFLICT ... DO UPDATE] against the table, rows in
    rowid order: the colliding row is updated in place, otherwise the new row
    is appended. *)
Fixpoint upsert (new : Prices.row) (tbl : list Prices.row) : list Prices.row :=
  match tbl with
  | [] => [new]
  | old :: rest =>
      if conflicts new old then do_update old new :: rest
      else old :: upsert new rest
  end.

(** The [NOT NULL] constraints a bound tuple can violate ([ingested_at] and
    [run_id] are always strings). *)
Definition insert_checks (r : Prices.row) : result unit :=
  match Prices.ticker r, Prices.datetime_utc r with
  | None, _ => Err (IntegrityError "NOT NULL constraint failed: prices.ticker")
  | _, None => Err (IntegrityError "NOT NULL constraint failed: prices.datetime_utc")
  | Some _, Some _ => Ok tt
  end.

(** [cur.executemany(INSERT ..., tuples)]: the tuples in order, stopping at
    the first one that raises.  A cell of [Prices.row] is text or a number
    that SQLite stores; a value [sqlite3] refuses to bind (an integer beyond
    64 bits, a list) is outside this type, and so is the exception of the
    binding: a call that returns in the code returns here, not the other way
    round. *)
Fixpoint executemany (tuples : list Prices.row) (tbl : list Prices.row)
  : result (list Prices.row) :=
  match tuples with
  | [] => Ok tbl
  | t :: rest =>
      do _ <- insert_checks t;
      executemany rest (upsert t tbl)
  end.

(** [INSERT OR REPLACE INTO runs]: the row holding the same [run_id] is
    deleted and the new one is inserted. *)
Definition insert_or_replace (new : Runs.row) (tbl : list Runs.row) : list Runs.row :=
  filter (fun r => Runs.run_id r ≠ Runs.run_id new) tbl ++ [new].

(* ===================================================================== *)
(** ** db.py: [ingest_prices] *)
(* ===================================================================== *)

Definition TZ_ISTANBUL : string := "Europe/Istanbul".

(** Lines 118-134: the UTC, local and Istanbul strings of one ['datetime']
    cell, by the dtype of the column.  A tz-aware cell is an instant: UTC is
    the instant itself and the other two are wall clocks.  A naive cell is
    kept as the local string and read as UTC for the other two.  On any other
    dtype [pd.to_datetime] or, failing that, the [.dt] accessor of line 133
    raises. *)
Definition datetime_strings `{TzDb} (dtype : datetime_dtype)
  : result (option Z -> option string * option string * option string) :=
  match dtype with
  | DatetimeTZ tz =>
      Ok (fun t => (strftime_ns t,
                    strftime_ns (wall_clock tz t),
                    strftime_ns (wall_clock TZ_ISTANBUL t)))
  | DatetimeNaive =>
      Ok (fun t => (strftime_ns t,
                    strftime_ns t,
                    strftime_ns (wall_clock TZ_ISTANBUL t)))
  | ObjectDtype => Err NotDatetimeLike
  end.

Definition REQUIRED : list string :=
  ["ticker"; "open"; "high"; "low"; "close"; "volume"].

(** Lines 136-165: one line of the working copy, in the order of [cols].
    'range' is renamed to 'range_str'; 'interval' and 'range_str' are filled
    from the arguments only when the table has no such column. *)
Definition tuple_of (df : DataFrame) (rng interval : string)
    (ingested_at run_id : string)
    (strings : option Z -> option string * option string * option string)
    (r : Row) : Prices.row :=
  let '(utc, local, tr) := strings (c_datetime r) in
  {| Prices.ticker := c_ticker r;
     Prices.datetime_utc := utc;
     Prices.datetime_local := local;
     Prices.datetime_tr := tr;
     Prices.open := c_open r;
     Prices.high := c_high r;
     Prices.low := c_low r;
     Prices.close := c_close r;
     Prices.volume := c_volume r;
     Prices.adjclose := c_adjclose r;
     Prices.range_str :=
       (if has_column df "range" then c_range r
        else if has_column df "range_str" then c_range_str r
        else Some rng);
     Prices.interval :=
       (if has_column df "interval" then c_interval r else Some interval);
     Prices.ingested_at := ingested_at;
     Prices.run_id := run_id |}.

(** Lines 111-175: the working copy [d_db], one tuple of fourteen values per
    line of the input, or the exception raised on the way. *)
Definition d_db `{TzDb} (df : DataFrame) (rng interval : string)
    (ingested_at run_id : string) : result (list Prices.row) :=
  if negb (has_column df "datetime") then Err MissingDatetimeColumn else
  do strings <- datetime_strings (dtype_datetime df);
  let missing := filter (fun c => negb (has_column df c)) REQUIRED in
  if negb (bool_decide (missing = [])) then Err (MissingRequiredColumns missing) else
  (* d[cols]: 'adjclose' is selected but was not among the required ones *)
  if negb (has_column df "adjclose") then Err (KeyError "adjclose") else
  Ok (map (tuple_of df rng interval ingested_at run_id strings) (rows df)).

(** A table that has both 'range' and 'range_str' ends with two columns
    labelled 'range_str', so [d[cols]] is fifteen wide and the first tuple
    bound to the fourteen placeholders raises. *)
Definition bindings_check (df : DataFrame) (tuples : list Prices.row) : result unit :=
  if has_column df "range" && has_column df "range_str"
     && negb (bool_decide (tuples = []))
  then Err (ProgrammingError "Incorrect number of bindings supplied")
  else Ok tt.

(** [ingest_prices(df, rng, interval, db_path, run_id, note)].  The second
    component is the database file after the call: an exception leaves before
    [con.commit()], so nothing the connection did is kept. *)
Definition ingest_prices `{TzDb} (env : Env) (df : DataFrame) (rng interval : string)
    (run_id : option string) (note : option string) (db : Database)
  : result string * Database :=
  let run_id := default (uuid4 env) run_id in
  let ingested_at := strftime (now env) in
  match d_db df rng interval ingested_at run_id with
  | Err e => (Err e, db)
  | Ok tuples =>
      (* con = sqlite3.connect(db_path) *)
      match (do _ <- bindings_check df tuples; executemany tuples (db_prices db)) with
      | Err e => (Err e, db)
      | Ok prices' =>
          let run := {| Runs.run_id := run_id;
                        Runs.started_at := ingested_at;
                        Runs.rng := rng;
                        Runs.interval := interval;
                        Runs.n_rows := Z.of_nat (length tuples);
                        Runs.note := note |} in
          (Ok run_id,
           {| db_runs := insert_or_replace run (db_runs db);
              db_prices := prices' |})
      end
  end.

(* ===================================================================== *)
(** ** Python's view of a JSON document *)
(* ===================================================================== *)

(** Truth value: [None], [False], zero, and the empty string, list and dict
    are false. *)
Definition truthy (v : json) : bool :=
  match v with
  | JNull => false
  | JBool b => b
  | JInt z => negb (z =? 0)%Z
  | JReal q => negb (Qnum q =? 0)%Z
  | JStr s => negb (String.eqb s "")
  | JArr items => negb (bool_decide (items = []))
  | JObj members => negb (bool_decide (members = []))
  end.

(** [a or b] *)
Definition py_or (a b : json) : json := if truthy a then a else b.

Fixpoint dict_lookup (k : string) (members : list (string * json)) : option json :=
  match members with
  | [] => None
  | (k', v) :: rest =>
      match dict_lookup k rest with
      | Some v' => Some v'
      | None => if String.eqb k k' then Some v else None
      end
  end.

(** [d.get(k, dflt)]: only a dict has the method. *)
Definition dict_get (d : json) (k : string) (dflt : json) : result json :=
  match d with
  | JObj members => Ok (default dflt (dict_lookup k members))
  | _ => Err (AttributeError "get")
  end.

(** [v[0]] *)
Definition index0 (v : json) : result json :=
  match v with
  | JArr (x :: _) => Ok x
  | JArr [] => Err IndexError
  | JStr (String c _) => Ok (JStr (String c EmptyString))
  | JStr EmptyString => Err IndexError
  | JObj _ => Err (KeyError "0")
  | _ => Err (TypeError "not subscriptable")
  end.

(** [len(v)] *)
Definition py_len (v : json) : result nat :=
  match v with
  | JArr items => Ok (length items)
  | JStr s => Ok (String.length s)
  | JObj members => Ok (length (remove_dups (map fst members)))
  | _ => Err (TypeError "len")
  end.

(* ===================================================================== *)
(** ** pandas: the constructors the fetcher uses *)
(* ===================================================================== *)

(** A dict as Python holds a JSON object: one entry per key, at the place
    where the key first appears, with the value given last. *)
Definition py_keys (members : list (string * json)) : list string :=
  reverse (remove_dups (reverse (map fst members))).

Definition py_dict (members : list (string * json)) : list (string * json) :=
  map (fun k => (k, default JNull (dict_lookup k members))) (py_keys members).

(** The index of a Series or of a table: the positions [0 .. n-1] (a
    RangeIndex) or the keys of a dict. *)
Inductive index : Type :=
| RangeIndex (n : nat)
| Labels (keys : list string).

Definition index_length (ix : index) : nat :=
  match ix with
  | RangeIndex n => n
  | Labels keys => length keys
  end.

Inductive label : Type :=
| Position (i : nat)
| Key (k : string).

Definition labels (ix : index) : list label :=
  match ix with
  | RangeIndex n => map Position (seq 0 n)
  | Labels keys => map Key keys
  end.

(** Where an index has a label, if it has it.  A position is never a key:
    the keys of a JSON object are strings. *)
Definition get_loc (ix : index) (l : label) : option nat :=
  match ix, l with
  | RangeIndex n, Position i => if decide (i < n) then Some i else None
  | Labels keys, Key k => fst <$> list_find (fun k' => k' = k) keys
  | _, _ => None
  end.

(** [pd.Series(v)]: its index and its values.  A list is indexed by
    position, a dict by its keys, [None] is the empty Series, and a scalar (a
    string too) is the Series of that one value. *)
Definition Series (v : json) : index * list json :=
  match v with
  | JArr items => (RangeIndex (length items), items)
  | JObj members =>
      (Labels (map fst (py_dict members)), map snd (py_dict members))
  | JNull => (RangeIndex 0, [])
  | scalar => (RangeIndex 1, [scalar])
  end.

Definition INT64_MIN : Z := (- 2 ^ 63)%Z.
Definition INT64_MAX : Z := (2 ^ 63 - 1)%Z.

(** The float64 nearest to a number, ties going to the even mantissa, for
    magnitudes in the normal range of a double (as the int64 and uint64
    values converted here are).  A double is left as it is. *)
Definition float64 (q : Q) : Q :=
  let a := Z.abs (Qnum q) in
  let d := Zpos (Qden q) in
  if (a =? 0)%Z then 0%Q else
  let scaled (e : Z) : Z * Z :=
    if (0 <=? e)%Z then (a, d * 2 ^ e)%Z else (a * 2 ^ (- e), d)%Z in
  let e0 := (Z.log2 a - Z.log2 d - 52)%Z in
  let e := if ((scaled e0).1 / (scaled e0).2 <? 2 ^ 52)%Z then (e0 - 1)%Z else e0 in
  let '(x, y) := scaled e in
  let m := (x / y)%Z in
  let r := (x mod y)%Z in
  let m' := if (y <? 2 * r)%Z then (m + 1)%Z
            else if (2 * r =? y)%Z then (m + m mod 2)%Z
            else m in
  let signed := if (Qnum q <? 0)%Z then (- m')%Z else m' in
  Qred (if (0 <=? e)%Z then inject_Z (signed * 2 ^ e)
        else Qmake signed (Z.to_pos (2 ^ (- e)))).

(** [series.reindex(table)], as [df[col] = series] aligns a Series with the
    table: each label of the table takes the value the Series has at that
    label.  When a label of the table is not in the Series, NaN comes in and
    an integer Series becomes float64. *)
Definition reindex (ix : index) (values : list (option Q)) (table : index)
  : list (option Q) :=
  let found := map (fun l => i ← get_loc ix l; values !! i) (labels table) in
  if bool_decide (Forall is_Some found)
  then map (default None) found
  else map (fun c => float64 <$> default None c) found.

(** One item of [pd.to_datetime(series, unit="s", utc=True)]: nanoseconds
    since the epoch; the smallest int64 is NaT and what does not fit a
    Timestamp raises. *)
Definition to_datetime_s (z : Z) : result (option Z) :=
  if (z =? INT64_MIN)%Z then Ok None
  else if (-9223372036 <=? z)%Z && (z <=? 9223372036)%Z
       then Ok (Some (z * NS_PER_S)%Z)
       else Err OutOfBoundsDatetime.

Fixpoint to_datetime_series (zs : list Z) : result (list (option Z)) :=
  match zs with
  | [] => Ok []
  | z :: rest =>
      do t <- to_datetime_s z;
      do ts <- to_datetime_series rest;
      Ok (t :: ts)
  end.

(** [Series.tz_convert] converts the index of a Series, not its values.  The
    index of [dt_index] is a RangeIndex or the keys of a dict, neither of
    which has a time zone: the call
    raises on every Series that has a value, and leaves the values (UTC) as
    they are on an empty one. *)
Definition Series_tz_convert (values : list (option Z)) (tz : json)
  : result (list (option Z)) :=
  match values with
  | [] => Ok []
  | _ :: _ => Err (TypeError "index is not a valid DatetimeIndex or PeriodIndex")
  end.

(** The order of [sort_values("datetime")]: ascending, NaT last. *)
Definition datetime_le (a b : Row) : Prop :=
  match c_datetime a, c_datetime b with
  | Some x, Some y => (x <= y)%Z
  | Some _, None => True
  | None, Some _ => False
  | None, None => True
  end.

#[global] Instance datetime_le_dec (a b : Row) : Decision (datetime_le a b).
Proof.
  unfold datetime_le.
  destruct (c_datetime a), (c_datetime b); try apply _.
Defined.

(** pandas, as far as the fetcher relies on it.  The three conversions
    depend on the whole list of values (its dtype is inferred from all of
    them) and on the version of the library; the fetcher is verified against
    any pandas that keeps one value per item and sorts.
    - [astype_int64 values]: the values of [pd.Series(values, dtype="int64")],
      or the exception of the cast;
    - [to_numeric values]: the values of
      [pd.to_numeric(pd.Series(values), errors="coerce")], NaN being [None];
    - [sort_values rows]: [df.sort_values("datetime").reset_index(drop=True)];
      pandas does not promise an order among equal instants. *)
Class Pandas := mkPandas {
  astype_int64 : list json -> result (list Z);
  astype_int64_length values zs :
    astype_int64 values = Ok zs -> length zs = length values;
  to_numeric : list json -> result (list (option Q));
  to_numeric_length values numbers :
    to_numeric values = Ok numbers -> length numbers = length values;
  sort_values : list Row -> list Row;
  sort_values_Permutation rs : sort_values rs ≡ₚ rs;
  sort_values_sorted rs : StronglySorted datetime_le (sort_values rs)
}.

(** [df[col] = pd.to_numeric(pd.Series(v), errors="coerce")] on a table with
    the index [table]: the cells of the new column. *)
Definition numeric_column `{Pandas} (table : index) (v : json)
  : result (list (option Q)) :=
  do numbers <- to_numeric (Series v).2;
  Ok (reindex (Series v).1 numbers table).

(* ===================================================================== *)
(** ** The network *)
(* ===================================================================== *)

(** The two GETs of [fetch_yahoo_chart], by what their URL is built from. *)
Inductive request : Type :=
| Warmup (symbol : string)
    (* https://finance.yahoo.com/quote/{symbol}/chart *)
| Chart (host symbol rng interval : string) (include_prepost : bool).
    (* https://{host}/v8/finance/chart/{symbol}?range=..&interval=..&.. *)

(** What a call of [sess.get] does: it raises, or returns a response with a
    status code and a body that [r.json()] parses ([Some]) or rejects
    ([None]).  This is the call as the fetcher sees it: the retries that the
    adapter of a session makes inside one call are not told apart. *)
Inductive reply : Type :=
| Raises (e : exn)
| Response (status_code : Z) (body : option json).

(** The remote side: what the n-th [sess.get] call of the run gives, and the
    calls made so far, oldest first. *)
Record World := mkWorld {
  server : nat -> request -> reply;
  sent : list request
}.

Definition sess_get (rq : request) (w : World) : reply * World :=
  (server w (length (sent w)) rq,
   {| server := server w; sent := sent w ++ [rq] |}).

(* ===================================================================== *)
(** ** fetch.py: [fetch_yahoo_chart] *)
(* ===================================================================== *)

Definition HOSTS : list string :=
  ["query1.finance.yahoo.com"; "query2.finance.yahoo.com"].

(** [r.raise_for_status()] raises on 4xx and 5xx. *)
Definition is_error_status (status : Z) : bool :=
  (400 <=? status)%Z && (status <? 600)%Z.

(** Lines 50-62, [for host in hosts * 2]: the loop over the candidate hosts,
    carrying [last_exc]; the first component is [data] when the loop ends. *)
Fixpoint request_data (symbol rng interval : string) (include_prepost : bool)
    (hosts : list string) (last_exc : option exn) (w : World)
  : option json * option exn * World :=
  match hosts with
  | [] => (None, last_exc, w)
  | host :: rest =>
      match sess_get (Chart host symbol rng interval include_prepost) w with
      | (Raises e, w') =>
          request_data symbol rng interval include_prepost rest (Some e) w'
      | (Response status body, w') =>
          if (status =? 429)%Z then
            (* sleep; continue *)
            request_data symbol rng interval include_prepost rest last_exc w'
          else if is_error_status status then
            request_data symbol rng interval include_prepost rest
              (Some (HTTPError status)) w'
          else
            match body with
            | None =>
                request_data symbol rng interval include_prepost rest
                  (Some JSONDecodeError) w'
            | Some data => (Some data, last_exc, w')   (* break *)
            end
      end
  end.

Definition FRAME_COLUMNS : gset string :=
  list_to_set ["datetime"; "open"; "high"; "low"; "close"; "volume";
               "adjclose"; "ticker"; "range"; "interval"; "datetime_tr"].

Definition cell {A : Type} (col : list (option A)) (i : nat) : option A :=
  default None (col !! i).

(** What lines 67-84 take out of the parsed body. *)
Record ChartParts := mkChartParts {
  p_meta : json;
  p_tz_name : json;
  p_timestamps : json;       (* truthy: an empty or missing one raises *)
  p_quote_block : json;
  p_adj_list : json
}.

(** Lines 67-84: the walk through the document. *)
Definition locate (symbol : string) (data : json) : result ChartParts :=
  do chart <- dict_get data "chart" (JObj []);
  do error <- dict_get chart "error" JNull;
  if truthy error then Err (YahooApiError symbol error) else
  do results <- dict_get chart "result" JNull;
  do result <- index0 (py_or results (JArr [JNull]));
  if negb (truthy result) then Err (EmptyResult symbol) else
  do meta0 <- dict_get result "meta" (JObj []);
  let meta := py_or meta0 (JObj []) in
  do tz_name <- dict_get meta "timezone" (JStr "UTC");
  do timestamps0 <- dict_get result "timestamp" JNull;
  let timestamps := py_or timestamps0 (JArr []) in
  if negb (truthy timestamps) then Err (NoTimestamps symbol) else
  do indicators0 <- dict_get result "indicators" (JObj []);
  let indicators := py_or indicators0 (JObj []) in
  do quote0 <- dict_get indicators "quote" JNull;
  do quote1 <- index0 (py_or quote0 (JArr [JObj []]));
  let quote_block := py_or quote1 (JObj []) in
  do adj0 <- dict_get indicators "adjclose" JNull;
  do adj_block <- (if truthy adj0 then index0 (py_or adj0 (JArr [JObj []]))
                   else Ok (JObj []));
  do adj_list <- dict_get adj_block "adjclose" (JArr []);
  Ok {| p_meta := meta;
        p_tz_name := tz_name;
        p_timestamps := timestamps;
        p_quote_block := quote_block;
        p_adj_list := adj_list |}.

(** Line 97, [adj_list and len(adj_list) == len(df)]: [len] is only called
    on a truthy value. *)
Definition adj_matches (adj_list : json) (n : nat) : result bool :=
  if truthy adj_list
  then (do k <- py_len adj_list; Ok (bool_decide (k = n)))
  else Ok false.

(** The lines of the table in the order of the provider's timestamps, before
    [sort_values]. *)
Definition frame_lines (symbol rng interval : string) (dt_local : list (option Z))
    (open high low close volume adjclose : list (option Q)) : list Row :=
  imap (fun i t =>
          {| c_datetime := t;
             c_ticker := Some symbol;
             c_open := cell open i;
             c_high := cell high i;
             c_low := cell low i;
             c_close := cell close i;
             c_volume := cell volume i;
             c_adjclose := cell adjclose i;
             c_range := Some rng;
             c_range_str := None;
             c_interval := Some interval |})
       dt_local.

(** Lines 86-114: the table built from the located parts.  The index of
    the table is that of the timestamp Series: positions for a list, keys
    for a dict. *)
Definition build_frame `{Pandas} (symbol rng interval : string) (parts : ChartParts)
  : result DataFrame :=
  let table := (Series (p_timestamps parts)).1 in
  do seconds <- astype_int64 (Series (p_timestamps parts)).2;
  do dt_index <- to_datetime_series seconds;
  let dt_local :=
    match Series_tz_convert dt_index (p_tz_name parts) with
    | Ok converted => converted
    | Err _ => dt_index
    end in
  let n := length dt_local in                      (* len(df) *)
  do open0 <- dict_get (p_quote_block parts) "open" (JArr []);
  do open <- numeric_column table open0;
  do high0 <- dict_get (p_quote_block parts) "high" (JArr []);
  do high <- numeric_column table high0;
  do low0 <- dict_get (p_quote_block parts) "low" (JArr []);
  do low <- numeric_column table low0;
  do close0 <- dict_get (p_quote_block parts) "close" (JArr []);
  do close <- numeric_column table close0;
  do volume0 <- dict_get (p_quote_block parts) "volume" (JArr []);
  do volume <- numeric_column table volume0;
  do use_adj <- adj_matches (p_adj_list parts) n;
  do adjclose <- (if use_adj then numeric_column table (p_adj_list parts)
                  else Ok (replicate n None));
  (* datetime_tr is the same instants shown in Europe/Istanbul: its cell is
     c_datetime again, and only the label is added *)
  Ok {| columns := FRAME_COLUMNS;
        dtype_datetime := DatetimeTZ "UTC";
        rows := sort_values
                  (frame_lines symbol rng interval dt_local
                     open high low close volume adjclose) |}.

(** Lines 67-115: from the parsed body to the table and the meta object. *)
Definition parse_chart `{Pandas} (symbol rng interval : string) (data : json)
  : result (DataFrame * json) :=
  do parts <- locate symbol data;
  do df <- build_frame symbol rng interval parts;
  Ok (df, p_meta parts).

(** [fetch_yahoo_chart(symbol, rng, interval, include_prepost, session=sess)]. *)
Definition fetch_yahoo_chart `{Pandas} (symbol rng interval : string)
    (include_prepost : bool) (w : World)
  : result (DataFrame * json) * World :=
  (* warm-up cookies: whatever the request does is ignored *)
  let '(_, w1) := sess_get (Warmup symbol) w in
  let '(data, last_exc, w2) :=
    request_data symbol rng interval include_prepost (HOSTS ++ HOSTS) None w1 in
  match data with
  | None | Some JNull => (Err (FetchFailed symbol last_exc), w2)
  | Some data => (parse_chart symbol rng interval data, w2)
  end.

(* ===================================================================== *)
(** ** fetch.py: [fetch_batch] *)
(* ===================================================================== *)

(** A line [fetch_batch] prints. *)
Inductive line : Type :=
| PrintOK (i n : nat) (sym : string) (n_rows : nat)
| PrintERR (i n : nat) (sym : string) (e : exn).

(** The accumulators of the loop.  [errors] keeps the exception where the
    code keeps its text, [str(e)]. *)
Record Batch := mkBatch {
  frames : list DataFrame;
  metas : gmap string json;
  errors : gmap string exn;
  stdout : list line
}.

(** Lines 125-134: the loop body for the symbols from position [i] on, [n]
    being [len(symbols)]. *)
Fixpoint fetch_loop `{Pandas} (symbols : list string) (i n : nat)
    (rng interval : string) (acc : Batch) (w : World) : Batch * World :=
  match symbols with
  | [] => (acc, w)
  | sym :: rest =>
      let '(r, w') := fetch_yahoo_chart sym rng interval false w in
      let acc' :=
        match r with
        | Ok (df_sym, meta) =>
            {| frames := frames acc ++ [df_sym];
               metas := <[sym := meta]> (metas acc);
               errors := errors acc;
               stdout := stdout acc ++ [PrintOK i n sym (length (rows df_sym))] |}
        | Err e =>
            {| frames := frames acc;
               metas := metas acc;
               errors := <[sym := e]> (errors acc);
               stdout := stdout acc ++ [PrintERR i n sym e] |}
        end in
      fetch_loop rest (S i) n rng interval acc' w'
  end.

(** [pd.concat(frames, ignore_index=True)] of tables with the same columns
    and dtype, as every table of [fetch_yahoo_chart] is. *)
Definition concat (fs : list DataFrame) : DataFrame :=
  {| columns := FRAME_COLUMNS;
     dtype_datetime := DatetimeTZ "UTC";
     rows := mjoin (map rows fs) |}.

(** The table returned when no symbol succeeded: eight columns of dtype
    object and no line. *)
Definition EMPTY_TABLE : DataFrame :=
  {| columns := list_to_set ["datetime"; "open"; "high"; "low"; "close";
                             "volume"; "adjclose"; "ticker"];
     dtype_datetime := ObjectDtype;
     rows := [] |}.

Record BatchResult := mkBatchResult {
  df_all : DataFrame;
  out_metas : gmap string json;
  out_errors : gmap string exn;
  printed : list line
}.

(** [fetch_batch(symbols, rng, interval)] *)
Definition fetch_batch `{Pandas} (symbols : list string) (rng interval : string)
    (w : World) : BatchResult * World :=
  let '(acc, w') :=
    fetch_loop symbols 1 (length symbols) rng interval
      {| frames := []; metas := ∅; errors := ∅; stdout := [] |} w in
  ({| df_all := if bool_decide (frames acc = []) then EMPTY_TABLE
                else concat (frames acc);
      out_metas := metas acc;
      out_errors := errors acc;
      printed := stdout acc |},
   w').

(* ===================================================================== *)
(** ** Concrete inputs *)
(* ===================================================================== *)

(** A time-zone database for the closed examples: Istanbul has been at
    UTC+3 since September 2016, the instants used below are from 2023. *)
Definition fixed_tz : TzDb :=
  fun tz _ => if String.eqb tz TZ_ISTANBUL then 10800%Z else 0%Z.

(** *** A pandas for the closed examples

    It reads JSON numbers, booleans and plain decimal text, which covers
    every value of the examples below; what it does with other values
    (exponents, text with blanks, integers beyond 64 bits) is a choice of
    this instance, not a statement about the library.  The sort is the
    stable insertion sort pandas uses on short tables. *)

Definition digit_of (c : ascii) : option Z :=
  let n := Z.of_nat (nat_of_ascii c) in
  if (48 <=? n)%Z && (n <=? 57)%Z then Some (n - 48)%Z else None.

Fixpoint natural (s : string) (acc : Z) : option Z :=
  match s with
  | EmptyString => Some acc
  | String c rest =>
      match digit_of c with
      | Some d => natural rest (10 * acc + d)
      | None => None
      end
  end.

(** The text [str] gives an integer: no blank, no plus sign, no leading
    zero.  The cast to int64 takes such text only. *)
Definition plain_int (s : string) : option Z :=
  match s with
  | EmptyString => None
  | String "-" EmptyString => None
  | String "-" (String "0" _) => None
  | String "-" rest => Z.opp <$> natural rest 0
  | String "0" (String _ _) => None
  | _ => natural s 0
  end.

(** Text as a number: an optional sign, digits, and an optional fraction. *)
Fixpoint split_at_dot (s : string) : string * option string :=
  match s with
  | EmptyString => (EmptyString, None)
  | String "." rest => (EmptyString, Some rest)
  | String c rest =>
      let '(whole, frac) := split_at_dot rest in (String c whole, frac)
  end.

Definition unsigned_decimal (s : string) : option Q :=
  let '(whole, frac) := split_at_dot s in
  match whole, frac with
  | EmptyString, _ => None
  | _, None => inject_Z <$> natural whole 0
  | _, Some EmptyString => None
  | _, Some digits =>
      match natural whole 0, natural digits 0 with
      | Some w, Some f =>
          Some (Qred (Qmake (w * 10 ^ Z.of_nat (String.length digits) + f)
                            (Z.to_pos (10 ^ Z.of_nat (String.length digits)))))
      | _, _ => None
      end
  end.

Definition decimal (s : string) : option Q :=
  match s with
  | String "-" rest => Qopp <$> unsigned_decimal rest
  | String "+" rest => unsigned_decimal rest
  | _ => unsigned_decimal s
  end.

Definition in_int64 (z : Z) : bool := (INT64_MIN <=? z)%Z && (z <=? INT64_MAX)%Z.

(** One item of [pd.Series(values, dtype="int64")]: an integer that fits, a
    float or a boolean that is one, text that spells one. *)
Definition to_int64 (v : json) : result Z :=
  match v with
  | JInt z => if in_int64 z then Ok z else Err (TypeError "int64 overflow")
  | JReal q =>
      let z := (Qnum q / Zpos (Qden q))%Z in
      if (Qnum q mod Zpos (Qden q) =? 0)%Z && in_int64 z
      then Ok z else Err (TypeError "int64 cast")
  | JBool b => Ok (if b then 1 else 0)%Z
  | JStr s =>
      match plain_int s with
      | Some z => if in_int64 z then Ok z else Err (TypeError "int64 overflow")
      | None => Err (TypeError "int64 cast")
      end
  | _ => Err (TypeError "int64 cast")
  end.

Fixpoint int64_series (items : list json) : result (list Z) :=
  match items with
  | [] => Ok []
  | v :: rest =>
      do z <- to_int64 v;
      do zs <- int64_series rest;
      Ok (z :: zs)
  end.

(** One value read as a number; what is not one is NaN. *)
Definition number_of (v : json) : option Q :=
  match v with
  | JInt z => Some (inject_Z z)
  | JReal q => Some q
  | JBool b => Some (if b then 1%Q else 0%Q)
  | JStr s => decimal s
  | _ => None
  end.

(** The values that make an integer Series when all are of this kind. *)
Definition is_int64 (v : json) : bool :=
  match v with
  | JInt z => in_int64 z
  | JBool _ => true
  | JStr s => match plain_int s with Some z => in_int64 z | None => false end
  | _ => false
  end.

(** Integers stay as they are in a Series that holds nothing else; next to
    a float, a null or anything that is not a number, the Series is float64. *)
Definition numeric_series (values : list json) : list (option Q) :=
  if forallb is_int64 values then map number_of values
  else map (fun v => float64 <$> number_of v) values.

Fixpoint insert_row (r : Row) (sorted : list Row) : list Row :=
  match sorted with
  | [] => [r]
  | r' :: rest =>
      if decide (datetime_le r r') then r :: sorted else r' :: insert_row r rest
  end.

(** Lines with equal instants stay in the order they had. *)
Definition stable_sort (rs : list Row) : list Row := foldr insert_row [] rs.

Lemma length_int64_series items zs :
  int64_series items = Ok zs -> length zs = length items.
Proof.
  revert zs. induction items as [|v vs IH]; intros zs; simpl.
  - by intros [= <-].
  - destruct (to_int64 v); simpl; [|discriminate].
    destruct (int64_series vs) as [zs'|]; simpl; [|discriminate].
    intros [= <-]. simpl. f_equal. by apply IH.
Qed.

Lemma length_numeric_series values numbers :
  Ok (numeric_series values) = Ok numbers -> length numbers = length values.
Proof.
  intros [= <-]. unfold numeric_series.
  destruct (forallb is_int64 values); apply length_map.
Qed.

Lemma insert_row_Permutation r rs : insert_row r rs ≡ₚ r :: rs.
Proof.
  induction rs as [|r' rest IH]; simpl; [done|].
  case_decide; [done|]. rewrite IH. apply Permutation_swap.
Qed.

Lemma stable_sort_Permutation rs : stable_sort rs ≡ₚ rs.
Proof.
  induction rs as [|r rest IH]; simpl; [done|].
  by rewrite insert_row_Permutation, IH.
Qed.

Lemma datetime_le_total a b : datetime_le a b \/ datetime_le b a.
Proof.
  unfold datetime_le. destruct (c_datetime a), (c_datetime b); try tauto. lia.
Qed.

Lemma datetime_le_trans a b c : datetime_le a b -> datetime_le b c -> datetime_le a c.
Proof.
  unfold datetime_le.
  destruct (c_datetime a), (c_datetime b), (c_datetime c); try tauto. lia.
Qed.

Lemma insert_row_sorted r rs :
  StronglySorted datetime_le rs -> StronglySorted datetime_le (insert_row r rs).
Proof.
  induction 1 as [|r' rest Hrest IH Hall]; simpl.
  - repeat constructor.
  - case_decide as Hle.
    + constructor; [by constructor|]. constructor; [done|].
      eapply Forall_impl; [exact Hall|]. intros x. by apply datetime_le_trans.
    + constructor; [done|]. rewrite insert_row_Permutation. constructor; [|done].
      by destruct (datetime_le_total r r').
Qed.

Lemma stable_sort_sorted rs : StronglySorted datetime_le (stable_sort rs).
Proof.
  induction rs as [|r rest IH]; simpl; [constructor|]. by apply insert_row_sorted.
Qed.

Definition pd : Pandas :=
  {| astype_int64 := int64_series;
     astype_int64_length := length_int64_series;
     to_numeric := fun values => Ok (numeric_series values);
     to_numeric_length := length_numeric_series;
     sort_values := stable_sort;
     sort_values_Permutation := stable_sort_Permutation;
     sort_values_sorted := stable_sort_sorted |}.

(** The float written [q] in a document. *)
Definition JFloat (q : Q) : json := JReal (float64 q).

Definition T0 : Z := 1700000000.                 (* 2023-11-14 22:13:20 UTC *)

Definition ALL_COLUMNS : gset string :=
  list_to_set ["datetime"; "ticker"; "open"; "high"; "low"; "close";
               "volume"; "adjclose"; "interval"].

(** One bar of ticker A at [T0]. *)
Definition bar (close : Q) (interval : option string) : Row :=
  {| c_datetime := Some (T0 * NS_PER_S)%Z;
     c_ticker := Some "A";
     c_open := Some (21 # 2);
     c_high := Some (11 # 1);
     c_low := Some (10 # 1);
     c_close := Some close;
     c_volume := Some (1000 # 1);
     c_adjclose := None;
     c_range := None;
     c_range_str := None;
     c_interval := interval |}.

Definition batch (dtype : datetime_dtype) (lines : list Row) : DataFrame :=
  {| columns := ALL_COLUMNS; dtype_datetime := dtype; rows := lines |}.

Definition batch_istanbul : DataFrame :=
  batch (DatetimeTZ TZ_ISTANBUL) [bar (54 # 5) (Some "5m")].

Definition batch_utc : DataFrame :=
  batch (DatetimeTZ "UTC") [bar (54 # 5) (Some "5m")].

Definition batch_naive : DataFrame :=
  {| columns := ALL_COLUMNS;
     dtype_datetime := DatetimeNaive;
     rows := [bar (54 # 5) (Some "5m")] |}.

(** The same bar with another close. *)
Definition batch_utc_revised : DataFrame :=
  batch (DatetimeTZ "UTC") [bar (60 # 5) (Some "5m")].

(** A table whose 'interval' column holds a missing value. *)
Definition batch_null_interval : DataFrame :=
  batch (DatetimeTZ "UTC") [bar (54 # 5) None].

(** A table with an object 'datetime' column and no 'volume' column. *)
Definition batch_object_no_volume : DataFrame :=
  {| columns := list_to_set ["datetime"; "ticker"; "open"; "high"; "low";
                             "close"; "adjclose"];
     dtype_datetime := ObjectDtype;
     rows := [] |}.

(** A table with a tz-aware 'datetime' column and no 'volume' column. *)
Definition batch_no_volume : DataFrame :=
  {| columns := list_to_set ["datetime"; "ticker"; "open"; "high"; "low";
                             "close"; "adjclose"];
     dtype_datetime := DatetimeTZ "UTC";
     rows := [bar (54 # 5) None] |}.

(** The row that [batch_utc], ingested into a new database at 22:15:00
    as run-1, leaves in [prices]. *)
Definition stored_bar : Prices.row :=
  {| Prices.ticker := Some "A";
     Prices.datetime_utc := Some "2023-11-14 22:13:20";
     Prices.datetime_local := Some "2023-11-14 22:13:20";
     Prices.datetime_tr := Some "2023-11-15 01:13:20";
     Prices.open := Some (21 # 2);
     Prices.high := Some (11 # 1);
     Prices.low := Some (10 # 1);
     Prices.close := Some (54 # 5);
     Prices.volume := Some (1000 # 1);
     Prices.adjclose := None;
     Prices.range_str := Some "12d";
     Prices.interval := Some "5m";
     Prices.ingested_at := "2023-11-14 22:15:00";
     Prices.run_id := "run-1" |}.

Definition bar_key : key := ("A", "2023-11-14 22:13:20", "5m").

Definition env1 : Env := {| now := 1700000100; uuid4 := "run-1" |}.
Definition env2 : Env := {| now := 1700000200; uuid4 := "run-2" |}.
Definition env3 : Env := {| now := 1700000300; uuid4 := "run-3" |}.

(** The response of the specification's example: one timestamp, one quote
    block, no adjclose. *)
Definition example_quote : json :=
  JObj [("open", JArr [JReal (21 # 2)]);
        ("high", JArr [JReal (11 # 1)]);
        ("low", JArr [JReal (10 # 1)]);
        ("close", JArr [JFloat (54 # 5)]);
        ("volume", JArr [JInt 1000])].

Definition example_body : json :=
  JObj [("chart",
         JObj [("result",
                JArr [JObj [("meta", JObj [("symbol", JStr "A")]);
                            ("timestamp", JArr [JInt T0]);
                            ("indicators",
                             JObj [("quote", JArr [example_quote])])]]);
               ("error", JNull)])].

(** Two timestamps, given latest first; quote arrays of lengths 1, 0, 3, 2
    and an absent one; an adjclose array of the right length. *)
Definition ragged_body : json :=
  JObj [("chart",
         JObj [("result",
                JArr [JObj [("meta", JObj []);
                            ("timestamp", JArr [JInt (T0 + 300); JInt T0]);
                            ("indicators",
                             JObj [("quote",
                                    JArr [JObj [("open", JArr [JInt 1]);
                                                ("high", JArr []);
                                                ("low", JArr [JInt 1; JInt 2; JInt 3]);
                                                ("close", JArr [JInt 7; JInt 8])]]);
                                   ("adjclose",
                                    JArr [JObj [("adjclose",
                                                 JArr [JInt 5; JInt 6])]])])]]);
               ("error", JNull)])].

(** The table of [ragged_body] for symbol A, range 12d, interval 5m: a
    line per timestamp, earliest first. *)
Definition ragged_table : DataFrame :=
  {| columns := FRAME_COLUMNS;
     dtype_datetime := DatetimeTZ "UTC";
     rows :=
       [{| c_datetime := Some (T0 * NS_PER_S)%Z;
           c_ticker := Some "A";
           c_open := None;
           c_high := None;
           c_low := Some (2 # 1);
           c_close := Some (8 # 1);
           c_volume := None;
           c_adjclose := Some (6 # 1);
           c_range := Some "12d";
           c_range_str := None;
           c_interval := Some "5m" |};
        {| c_datetime := Some ((T0 + 300) * NS_PER_S)%Z;
           c_ticker := Some "A";
           c_open := Some (1 # 1);
           c_high := None;
           c_low := Some (1 # 1);
           c_close := Some (7 # 1);
           c_volume := None;
           c_adjclose := Some (5 # 1);
           c_range := Some "12d";
           c_range_str := None;
           c_interval := Some "5m" |}] |}.


(** Servers: one that answers every request with 429, one that answers every
    request with [body], one that answers only the first two requests (the
    warm-up and the first data request) and then drops every connection. *)
Definition always_429 : World :=
  {| server := fun _ _ => Response 429 None; sent := [] |}.



(** A server where only symbol B is unknown: its data requests get 404. *)
Definition b_unknown (body : json) : World :=
  {| server := fun _ rq =>
       match rq with
       | Chart _ "B" _ _ _ => Response 404 None
       | _ => Response 200 (Some body)
       end;
     sent := [] |}.

(* ===================================================================== *)
(** ** Vocabulary of the statements *)
(* ===================================================================== *)

Definition has_key (k : key) (r : Prices.row) : bool :=
  bool_decide (unique_key r = Some k).

(** The row stored under a key: the first one in rowid order. *)
Definition lookup_key (k : key) (tbl : list Prices.row) : option Prices.row :=
  List.find (has_key k) tbl.

(** No two rows have the same entry in the primary-key index. *)
Definition keys_unique (tbl : list Prices.row) : Prop :=
  NoDup (omap unique_key tbl).

(** The three columns of the natural key as they are stored. *)
Definition natural_key (r : Prices.row) : option string * option string * option string :=
  (Prices.ticker r, Prices.datetime_utc r, Prices.interval r).

(** The columns the conflict update assigns... *)
Definition written_fields (r : Prices.row) :=
  (Prices.open r, Prices.high r, Prices.low r, Prices.close r, Prices.volume r,
   Prices.adjclose r, Prices.range_str r, Prices.ingested_at r, Prices.run_id r).

(** ... and the ones it does not. *)
Definition kept_fields (r : Prices.row) :=
  (Prices.ticker r, Prices.datetime_utc r, Prices.interval r,
   Prices.datetime_local r, Prices.datetime_tr r).

(** What a sequence of upserts leaves under key [k], from what was there. *)
Definition fold_key (k : key) (tuples : list Prices.row) (stored : option Prices.row)
  : option Prices.row :=
  fold_left
    (fun o t =>
       if has_key k t
       then Some (match o with Some old => do_update old t | None => t end)
       else o)
    tuples stored.

(** The table has no 'interval' column, or no cell of it is missing. *)
Definition intervals_known (df : DataFrame) : Prop :=
  has_column df "interval" = true ->
  Forall (fun r => is_Some (c_interval r)) (rows df).

Definition utc_is_local (r : Prices.row) : Prop :=
  Prices.datetime_utc r = Prices.datetime_local r.

(** The databases a new file can become: [init_db], then any calls of
    [ingest_prices]. *)
Inductive reachable `{TzDb} : Database -> Prop :=
| reachable_init : reachable (init_db None)
| reachable_ingest env df rng interval run_id note db :
    reachable db ->
    reachable (snd (ingest_prices env df rng interval run_id note db)).

(** The four data requests of one fetch, in the order of [hosts * 2]. *)
Definition data_requests (symbol rng interval : string) (include_prepost : bool)
  : list request :=
  map (fun host => Chart host symbol rng interval include_prepost) (HOSTS ++ HOSTS).

(** How the loop reads a reply: the body it stops at, the exception it
    records, or nothing (a 429). *)
Inductive outcome : Type :=
| Yields (data : json)
| Fails (e : exn)
| RateLimited.

Definition classify (r : reply) : outcome :=
  match r with
  | Raises e => Fails e
  | Response status body =>
      if (status =? 429)%Z then RateLimited
      else if is_error_status status then Fails (HTTPError status)
      else match body with
           | Some data => Yields data
           | None => Fails JSONDecodeError
           end
  end.

(** The replies the server gives to the requests [rqs] when they are the
    requests number [n], [n + 1], ... of the run. *)
Fixpoint replies_from (srv : nat -> request -> reply) (n : nat) (rqs : list request)
  : list reply :=
  match rqs with
  | [] => []
  | rq :: rest => srv n rq :: replies_from srv (S n) rest
  end.

(** What the four data requests of a fetch started in world [w] would be
    answered, and how the loop reads each answer; the warm-up is request
    number [length (sent w)] and the data requests follow it. *)
Definition outcomes (symbol rng interval : string) (include_prepost : bool) (w : World)
  : list outcome :=
  map classify
      (replies_from (server w) (S (length (sent w)))
         (data_requests symbol rng interval include_prepost)).

(** The outcomes up to and including the first that yields a body. *)
Fixpoint attempts (os : list outcome) : list outcome :=
  match os with
  | [] => []
  | Yields d :: _ => [Yields d]
  | o :: rest => o :: attempts rest
  end.

Definition is_yield (o : outcome) : bool :=
  match o with Yields _ => true | _ => false end.

(** The body the loop ends with. *)
Definition yielded (os : list outcome) : option json :=
  match last os with
  | Some (Yields data) => Some data
  | _ => None
  end.

(** The last exception among the outcomes, as [last_exc] keeps it. *)
Definition last_exception (os : list outcome) : option exn :=
  last (omap (fun o => match o with Fails e => Some e | _ => None end) os).

(** The last error observed, a 429 answer counting as one (the status error
    [raise_for_status] would have raised for it). *)
Definition last_observed_error (os : list outcome) : option exn :=
  last (omap (fun o => match o with
                       | Fails e => Some e
                       | RateLimited => Some (HTTPError 429)
                       | Yields _ => None
                       end) os).

(** The fetches of a batch one after the other: each symbol with the result
    of its fetch, the world being threaded through. *)
Fixpoint fetch_trace `{Pandas} (symbols : list string) (rng interval : string)
    (w : World) : list (string * result (DataFrame * json)) :=
  match symbols with
  | [] => []
  | sym :: rest =>
      let '(r, w') := fetch_yahoo_chart sym rng interval false w in
      (sym, r) :: fetch_trace rest rng interval w'
  end.

Definition is_warmup (rq : request) : bool :=
  match rq with Warmup _ => true | Chart _ _ _ _ _ => false end.

(** What one fetch of a batch leaves in each accumulator. *)
Definition entry : Type := string * result (DataFrame * json).

Definition entry_rows (en : entry) : list Row :=
  match en.2 with
  | Ok (df, _) => rows df
  | Err _ => []
  end.

Definition record_meta (m : gmap string json) (en : entry) : gmap string json :=
  match en.2 with
  | Ok (_, meta) => <[en.1 := meta]> m
  | Err _ => m
  end.

Definition record_error (m : gmap string exn) (en : entry) : gmap string exn :=
  match en.2 with
  | Ok _ => m
  | Err e => <[en.1 := e]> m
  end.

Definition print_line (n : nat) (i : nat) (en : entry) : line :=
  match en.2 with
  | Ok (df, _) => PrintOK i n en.1 (length (rows df))
  | Err e => PrintERR i n en.1 e
  end.

Definition warmups (w : World) : list request :=
  filter (fun rq => is_warmup rq = true) (sent w).

(** What every check of [ingest_prices] asks of a table: the 'datetime'
    column exists and holds datetimes, the required columns and 'adjclose'
    exist, a table with both 'range' and 'range_str' has no line, and no line
    lacks its ticker or its datetime. *)
Definition ingestible (df : DataFrame) : Prop :=
  has_column df "datetime" = true /\
  dtype_datetime df <> ObjectDtype /\
  Forall (fun c => has_column df c = true) (REQUIRED ++ ["adjclose"]) /\
  (has_column df "range" = true -> has_column df "range_str" = true -> rows df = []) /\
  Forall (fun r => is_Some (c_ticker r) /\ is_Some (c_datetime r)) (rows df).

(** The run ids the run log holds. *)
Definition logged_runs (db : Database) : list string :=
  map Runs.run_id (db_runs db).

(** The entries of a trace whose fetch raised. *)
Definition raised (en : entry) : Prop :=
  match en.2 with Ok _ => False | Err _ => True end.

(** A server whose warm-up page is down while the chart API answers. *)
Definition warmup_down (body : json) : World :=
  {| server := fun _ rq =>
       match rq with
       | Warmup _ => Raises (RequestException "connection reset")
       | Chart _ _ _ _ _ => Response 200 (Some body)
       end;
     sent := [] |}.

(** The bar of ticker A five minutes after [T0]. *)
Definition next_bar : Row :=
  {| c_datetime := Some ((T0 + 300) * NS_PER_S)%Z;
     c_ticker := Some "A";
     c_open := Some (54 # 5);
     c_high := Some (11 # 1);
     c_low := Some (10 # 1);
     c_close := Some (21 # 2);
     c_volume := Some (500 # 1);
     c_adjclose := None;
     c_range := None;
     c_range_str := None;
     c_interval := Some "5m" |}.

Definition batch_next : DataFrame := batch (DatetimeTZ "UTC") [next_bar].

(** A bar five minutes after [T0] whose ticker is missing, and a table
    that holds it after a valid bar. *)
Definition nameless_bar : Row :=
  {| c_datetime := Some ((T0 + 300) * NS_PER_S)%Z;
     c_ticker := None;
     c_open := Some (21 # 2);
     c_high := Some (11 # 1);
     c_low := Some (10 # 1);
     c_close := Some (54 # 5);
     c_volume := Some (1000 # 1);
     c_adjclose := None;
     c_range := None;
     c_range_str := None;
     c_interval := Some "5m" |}.

Definition batch_null_ticker : DataFrame :=
  batch (DatetimeTZ "UTC") [bar (54 # 5) (Some "5m"); nameless_bar].

(** What [locate] takes out of [ragged_body]. *)
Definition ragged_parts : ChartParts :=
  {| p_meta := JObj [];
     p_tz_name := JStr "UTC";
     p_timestamps := JArr [JInt (T0 + 300); JInt T0];
     p_quote_block := JObj [("open", JArr [JInt 1]);
                            ("high", JArr []);
                            ("low", JArr [JInt 1; JInt 2; JInt 3]);
                            ("close", JArr [JInt 7; JInt 8])];
     p_adj_list := JArr [JInt 5; JInt 6] |}.

(** A table with its own 'range' and 'interval' columns, as the fetcher
    makes them. *)
Definition batch_own_range : DataFrame :=
  {| columns := FRAME_COLUMNS;
     dtype_datetime := DatetimeTZ "UTC";
     rows := [{| c_datetime := Some (T0 * NS_PER_S)%Z;
                 c_ticker := Some "A";
                 c_open := Some (21 # 2);
                 c_high := Some (11 # 1);
                 c_low := Some (10 # 1);
                 c_close := Some (54 # 5);
                 c_volume := Some (1000 # 1);
                 c_adjclose := None;
                 c_range := Some "1mo";
                 c_range_str := None;
                 c_interval := Some "1d" |}] |}.

(* ===================================================================== *)
(** * The persistence layer *)
(* ===================================================================== *)

(** ** One upsert *)

Lemma conflicts_true new old :
  conflicts new old = true <->
  exists k, unique_key new = Some k /\ unique_key old = Some k.
Proof.
  unfold conflicts. destruct (unique_key new) as [k|].
  - rewrite bool_decide_eq_true. split.
    + intros Hold. exists k. done.
    + intros (k' & Hk & Hold). congruence.
  - split; [done | intros (k & Hk & _); done].
Qed.

Lemma unique_key_do_update old t : unique_key (do_update old t) = unique_key old.
Proof. reflexivity. Qed.

Lemma kept_fields_do_update old t : kept_fields (do_update old t) = kept_fields old.
Proof. reflexivity. Qed.

Lemma written_fields_do_update old t : written_fields (do_update old t) = written_fields t.
Proof. reflexivity. Qed.

Lemma do_update_twice old t t' : do_update (do_update old t) t' = do_update old t'.
Proof. reflexivity. Qed.

Lemma unique_key_kept r r' : kept_fields r = kept_fields r' -> unique_key r = unique_key r'.
Proof. unfold kept_fields, unique_key. intros [= -> -> -> _ _]. done. Qed.

Lemma has_key_true k r : has_key k r = true <-> unique_key r = Some k.
Proof. apply bool_decide_eq_true. Qed.

Lemma has_key_false k r : has_key k r = false <-> unique_key r <> Some k.
Proof. apply bool_decide_eq_false. Qed.

(** What an upsert leaves under each key. *)
Lemma lookup_key_upsert k t tbl :
  lookup_key k (upsert t tbl) =
  if has_key k t
  then Some (match lookup_key k tbl with Some old => do_update old t | None => t end)
  else lookup_key k tbl.
Proof.
  unfold lookup_key. induction tbl as [|old rest IH]; simpl.
  - destruct (has_key k t); done.
  - destruct (conflicts t old) eqn:Hc; simpl.
    + apply conflicts_true in Hc as (k' & Ht & Hold).
      assert (has_key k (do_update old t) = has_key k old) as -> by done.
      destruct (has_key k t) eqn:Hkt.
      * apply has_key_true in Hkt.
        assert (has_key k old = true) as -> by (apply has_key_true; congruence).
        done.
      * apply has_key_false in Hkt.
        assert (has_key k old = false) as -> by (apply has_key_false; congruence).
        done.
    + destruct (has_key k old) eqn:Hko.
      * destruct (has_key k t) eqn:Hkt; [|done].
        apply has_key_true in Hko, Hkt.
        assert (conflicts t old = true) by (apply conflicts_true; eauto).
        congruence.
      * apply IH.
Qed.

(** An upsert either rewrites the stored row of its key, leaving the kept
    columns of every row as they are, or appends its tuple. *)
Lemma upsert_cases t tbl :
  (exists k, unique_key t = Some k /\ is_Some (lookup_key k tbl) /\
             map kept_fields (upsert t tbl) = map kept_fields tbl) \/
  ((forall k, unique_key t = Some k -> lookup_key k tbl = None) /\
   upsert t tbl = tbl ++ [t]).
Proof.
  unfold lookup_key. induction tbl as [|old rest IH]; simpl.
  - right. done.
  - destruct (conflicts t old) eqn:Hc.
    + left. apply conflicts_true in Hc as (k & Ht & Hold).
      exists k. split; [done|]. split; [|done].
      assert (has_key k old = true) as -> by (by apply has_key_true). eauto.
    + destruct IH as [(k & Ht & Hsome & Hmap) | [Hnone Happ]].
      * left. exists k. split; [done|]. split.
        -- destruct (has_key k old); eauto.
        -- simpl. by rewrite Hmap.
      * right. split; [|by rewrite Happ].
        intros k Ht. destruct (has_key k old) eqn:Hko; [|by apply Hnone].
        apply has_key_true in Hko.
        assert (conflicts t old = true) by (apply conflicts_true; eauto).
        congruence.
Qed.

Lemma upsert_lookup_pos t tbl i r :
  tbl !! i = Some r -> conflicts t r = false -> upsert t tbl !! i = Some r.
Proof.
  revert i. induction tbl as [|old rest IH]; intros i Hi Hc; [done|].
  simpl. destruct i as [|i]; simpl in *.
  - injection Hi as ->. by rewrite Hc.
  - destruct (conflicts t old); simpl; [done | by apply IH].
Qed.

Lemma lookup_key_None k tbl :
  lookup_key k tbl = None <-> k ∉ omap unique_key tbl.
Proof.
  unfold lookup_key. induction tbl as [|r rest IH]; simpl.
  - split; [intros _; apply not_elem_of_nil | done].
  - destruct (has_key k r) eqn:Hk.
    + apply has_key_true in Hk. rewrite Hk. split; [done|].
      intros Hn. exfalso. apply Hn. left.
    + apply has_key_false in Hk. destruct (unique_key r) as [k'|] eqn:Hr.
      * rewrite IH, not_elem_of_cons. split; [|tauto].
        intros ?; split; [intros ->; by apply Hk | done].
      * apply IH.
Qed.

Lemma omap_unique_key_kept tbl tbl' :
  map kept_fields tbl = map kept_fields tbl' ->
  omap unique_key tbl = omap unique_key tbl'.
Proof.
  revert tbl'. induction tbl as [|r rest IH]; intros [|r' rest']; try done.
  simpl. intros Heq.
  apply (f_equal (fun l => default (kept_fields r) (head l))) in Heq as Hr.
  apply (f_equal tail) in Heq as Hrest. simpl in Hr, Hrest.
  rewrite (unique_key_kept _ _ Hr).
  destruct (unique_key r'); [f_equal|]; by apply IH.
Qed.

Lemma keys_unique_upsert t tbl : keys_unique tbl -> keys_unique (upsert t tbl).
Proof.
  unfold keys_unique. intros Hu.
  destruct (upsert_cases t tbl) as [(k & _ & _ & Hmap) | [Hnone ->]].
  - by rewrite (omap_unique_key_kept _ _ Hmap).
  - rewrite omap_app. simpl. destruct (unique_key t) as [k|] eqn:Ht; simpl.
    + apply NoDup_app. split; [done|]. split; [|apply NoDup_singleton].
      intros k' Hin Hk'. apply list_elem_of_singleton in Hk' as ->.
      specialize (Hnone k eq_refl). by apply lookup_key_None in Hnone.
    + by rewrite app_nil_r.
Qed.

Lemma upsert_Forall (P : Prices.row -> Prop) t tbl :
  (forall old, P old -> P (do_update old t)) ->
  Forall P tbl -> P t -> Forall P (upsert t tbl).
Proof.
  intros Hupd Htbl Ht. induction Htbl as [|old rest Hold Hrest IH]; simpl.
  - by constructor.
  - destruct (conflicts t old); constructor; auto.
Qed.

(** ** A sequence of upserts *)

Lemma executemany_cons_inv t rest tbl tbl' :
  executemany (t :: rest) tbl = Ok tbl' ->
  insert_checks t = Ok tt /\ executemany rest (upsert t tbl) = Ok tbl'.
Proof.
  simpl. destruct (insert_checks t) as [[]|e]; simpl; [done | discriminate].
Qed.

Lemma executemany_checks tuples tbl tbl' :
  executemany tuples tbl = Ok tbl' ->
  Forall (fun t => insert_checks t = Ok tt) tuples.
Proof.
  revert tbl. induction tuples as [|t rest IH]; intros tbl Hex; [constructor|].
  apply executemany_cons_inv in Hex as [Ht Hrest]. constructor; eauto.
Qed.

Lemma executemany_total tuples tbl :
  Forall (fun t => insert_checks t = Ok tt) tuples ->
  exists tbl', executemany tuples tbl = Ok tbl'.
Proof.
  intros Hall. revert tbl.
  induction Hall as [|t rest Ht _ IH]; intros tbl; simpl; [eauto|].
  rewrite Ht. simpl. apply IH.
Qed.

Lemma lookup_key_executemany k tuples tbl tbl' :
  executemany tuples tbl = Ok tbl' ->
  lookup_key k tbl' = fold_key k tuples (lookup_key k tbl).
Proof.
  revert tbl. induction tuples as [|t rest IH]; intros tbl Hex.
  - injection Hex as <-. done.
  - apply executemany_cons_inv in Hex as [_ Hrest].
    rewrite (IH _ Hrest), lookup_key_upsert. done.
Qed.

Lemma executemany_kept_prefix tuples tbl tbl' :
  executemany tuples tbl = Ok tbl' ->
  map kept_fields tbl `prefix_of` map kept_fields tbl'.
Proof.
  revert tbl. induction tuples as [|t rest IH]; intros tbl Hex.
  - injection Hex as <-. done.
  - apply executemany_cons_inv in Hex as [_ Hrest].
    etrans; [|by apply (IH _ Hrest)].
    destruct (upsert_cases t tbl) as [(k & _ & _ & ->) | [_ ->]]; [done|].
    rewrite map_app. by apply prefix_app_r.
Qed.

Lemma executemany_lookup_pos tuples tbl tbl' i r :
  executemany tuples tbl = Ok tbl' ->
  tbl !! i = Some r ->
  Forall (fun t => conflicts t r = false) tuples ->
  tbl' !! i = Some r.
Proof.
  intros Hex Hi Hall. revert tbl Hex Hi.
  induction Hall as [|t rest Ht _ IH]; intros tbl Hex Hi.
  - injection Hex as <-. done.
  - apply executemany_cons_inv in Hex as [_ Hrest].
    eapply IH; [done|]. by apply upsert_lookup_pos.
Qed.

Lemma keys_unique_executemany tuples tbl tbl' :
  executemany tuples tbl = Ok tbl' -> keys_unique tbl -> keys_unique tbl'.
Proof.
  revert tbl. induction tuples as [|t rest IH]; intros tbl Hex Hu.
  - by injection Hex as <-.
  - apply executemany_cons_inv in Hex as [_ Hrest].
    eapply IH; [done|]. by apply keys_unique_upsert.
Qed.

Lemma executemany_Forall (P : Prices.row -> Prop) tuples tbl tbl' :
  (forall old t, P old -> P (do_update old t)) ->
  executemany tuples tbl = Ok tbl' ->
  Forall P tbl -> Forall P tuples -> Forall P tbl'.
Proof.
  intros Hupd Hex Htbl Hall. revert tbl Hex Htbl.
  induction Hall as [|t rest Ht _ IH]; intros tbl Hex Htbl.
  - by injection Hex as <-.
  - apply executemany_cons_inv in Hex as [_ Hrest].
    eapply IH; [done|]. apply upsert_Forall; auto.
Qed.

(** When every tuple finds its key in the table, no row is added and the kept
    columns of every row stay. *)
Lemma executemany_all_present tuples tbl tbl' :
  executemany tuples tbl = Ok tbl' ->
  Forall (fun t => exists k, unique_key t = Some k /\ k ∈ omap unique_key tbl) tuples ->
  map kept_fields tbl' = map kept_fields tbl.
Proof.
  revert tbl. induction tuples as [|t rest IH]; intros tbl Hex Hall.
  - by injection Hex as <-.
  - apply executemany_cons_inv in Hex as [_ Hrest].
    apply Forall_cons in Hall as [(k & Ht & Hin) Hall].
    assert (map kept_fields (upsert t tbl) = map kept_fields tbl) as Hmap.
    { destruct (upsert_cases t tbl) as [(k' & _ & _ & Hmap) | [Hnone _]]; [done|].
      specialize (Hnone k Ht). apply lookup_key_None in Hnone. done. }
    rewrite <- Hmap. apply IH; [done|].
    by rewrite (omap_unique_key_kept _ _ Hmap).
Qed.

(** ** What is left under a key *)

Lemma fold_key_snoc k tuples t o :
  fold_key k (tuples ++ [t]) o =
  if has_key k t
  then Some (match fold_key k tuples o with Some old => do_update old t | None => t end)
  else fold_key k tuples o.
Proof. unfold fold_key. by rewrite fold_left_app. Qed.

Lemma fold_key_stored k tuples old :
  fold_key k tuples (Some old) =
  Some (match last (filter (fun t => has_key k t = true) tuples) with
        | Some t => do_update old t
        | None => old
        end).
Proof.
  induction tuples as [|t tuples IH] using rev_ind; [done|].
  rewrite fold_key_snoc, filter_app, IH. simpl.
  rewrite filter_cons, filter_nil. destruct (has_key k t) eqn:Hk.
  - rewrite decide_True by done. rewrite last_snoc.
    by destruct (last _).
  - rewrite decide_False by (by destruct (has_key k t)). by rewrite app_nil_r.
Qed.

Lemma fold_key_written k tuples o t :
  last (filter (fun t => has_key k t = true) tuples) = Some t ->
  exists r, fold_key k tuples o = Some r /\ written_fields r = written_fields t.
Proof.
  induction tuples as [|t' tuples IH] using rev_ind; [done|].
  rewrite fold_key_snoc, filter_app, filter_cons, filter_nil.
  destruct (has_key k t') eqn:Hk.
  - rewrite decide_True by done. rewrite last_snoc. intros [= ->].
    eexists. split; [done|]. by destruct (fold_key k tuples o).
  - rewrite decide_False by (by destruct (has_key k t')).
    rewrite app_nil_r. apply IH.
Qed.

Lemma fold_key_inserted k tuples r :
  fold_key k tuples None = Some r ->
  exists t, t ∈ tuples /\ kept_fields r = kept_fields t.
Proof.
  revert r. induction tuples as [|t tuples IH] using rev_ind; intros r; [done|].
  rewrite fold_key_snoc. destruct (has_key k t) eqn:Hk.
  - destruct (fold_key k tuples None) as [old|] eqn:Hold; intros [= <-].
    + destruct (IH old eq_refl) as (t0 & Hin & Hkept). exists t0.
      split; [apply elem_of_app; by left | done].
    + exists t. split; [apply elem_of_app; right; apply list_elem_of_singleton; done | done].
  - intros Hr. destruct (IH r Hr) as (t0 & Hin & Hkept). exists t0.
    split; [apply elem_of_app; by left | done].
Qed.

(** ** [ingest_prices], taken apart *)

Section Ingest.
Context `{TzDb}.

Lemma ingest_prices_ok env df rng interval run_id note db id db' :
  ingest_prices env df rng interval run_id note db = (Ok id, db') ->
  id = default (uuid4 env) run_id /\
  exists tuples,
    d_db df rng interval (strftime (now env)) id = Ok tuples /\
    bindings_check df tuples = Ok tt /\
    executemany tuples (db_prices db) = Ok (db_prices db') /\
    db_runs db' =
      insert_or_replace
        {| Runs.run_id := id;
           Runs.started_at := strftime (now env);
           Runs.rng := rng;
           Runs.interval := interval;
           Runs.n_rows := Z.of_nat (length tuples);
           Runs.note := note |}
        (db_runs db).
Proof.
  unfold ingest_prices.
  destruct (d_db df rng interval (strftime (now env)) (default (uuid4 env) run_id))
    as [tuples|e] eqn:Hd; [|discriminate].
  destruct (bindings_check df tuples) as [[]|e] eqn:Hb; simpl; [|discriminate].
  destruct (executemany tuples (db_prices db)) as [prices'|e] eqn:Hex; [|discriminate].
  intros [= <- <-]. split; [done|]. exists tuples. done.
Qed.

Lemma ingest_prices_err env df rng interval run_id note db e db' :
  ingest_prices env df rng interval run_id note db = (Err e, db') -> db' = db.
Proof.
  unfold ingest_prices.
  destruct (d_db _ _ _ _ _) as [tuples|e0]; [|by intros [= _ <-]].
  destruct (bindings_check df tuples) as [[]|e1]; simpl; [|by intros [= _ <-]].
  destruct (executemany _ _) as [prices'|e2]; [discriminate | by intros [= _ <-]].
Qed.

(** A successful [d_db] passed every check and is a map over the lines. *)
Lemma d_db_ok df rng interval ingested_at run_id tuples :
  d_db df rng interval ingested_at run_id = Ok tuples ->
  exists strings,
    datetime_strings (dtype_datetime df) = Ok strings /\
    has_column df "datetime" = true /\
    filter (fun c => negb (has_column df c)) REQUIRED = [] /\
    has_column df "adjclose" = true /\
    tuples = map (tuple_of df rng interval ingested_at run_id strings) (rows df).
Proof.
  unfold d_db. destruct (has_column df "datetime"); simpl; [|discriminate].
  destruct (datetime_strings (dtype_datetime df)) as [strings|e]; simpl; [|discriminate].
  destruct (bool_decide _) eqn:Hm; simpl; [|discriminate].
  apply bool_decide_eq_true in Hm.
  destruct (has_column df "adjclose"); simpl; [|discriminate].
  intros [= <-]. exists strings. done.
Qed.

(** The checks do not read the stamp: another stamp gives the same tuples
    with that stamp. *)
Lemma d_db_restamp df rng interval a b a' b' tuples :
  d_db df rng interval a b = Ok tuples ->
  exists strings,
    tuples = map (tuple_of df rng interval a b strings) (rows df) /\
    d_db df rng interval a' b' =
      Ok (map (tuple_of df rng interval a' b' strings) (rows df)).
Proof.
  unfold d_db. destruct (has_column df "datetime"); simpl; [|discriminate].
  destruct (datetime_strings (dtype_datetime df)) as [strings|e]; simpl; [|discriminate].
  destruct (bool_decide _); simpl; [|discriminate].
  destruct (has_column df "adjclose"); simpl; [|discriminate].
  intros [= <-]. exists strings. done.
Qed.

Lemma kept_fields_tuple_of df rng interval a b a' b' strings r :
  kept_fields (tuple_of df rng interval a' b' strings r) =
  kept_fields (tuple_of df rng interval a b strings r).
Proof. unfold tuple_of. by destruct (strings (c_datetime r)) as [[utc local] tr]. Qed.

Lemma insert_checks_kept t t' :
  kept_fields t' = kept_fields t -> insert_checks t' = insert_checks t.
Proof. unfold kept_fields, insert_checks. by intros [= -> -> _ _ _]. Qed.

(** A tuple that passes the NOT NULL checks and has an interval has an entry
    in the index. *)
Lemma tuple_of_has_key df rng interval a b strings r :
  intervals_known df -> r ∈ rows df ->
  insert_checks (tuple_of df rng interval a b strings r) = Ok tt ->
  is_Some (unique_key (tuple_of df rng interval a b strings r)).
Proof.
  intros Hknown Hin. unfold insert_checks, unique_key, tuple_of.
  destruct (strings (c_datetime r)) as [[utc local] tr]. simpl.
  destruct (c_ticker r); [|discriminate]. destruct utc; [|discriminate]. intros _.
  destruct (has_column df "interval") eqn:Hcol; [|eauto].
  specialize (Hknown Hcol). rewrite Forall_forall in Hknown.
  destruct (Hknown r Hin) as [i ->]. eauto.
Qed.

End Ingest.

Lemma last_filter_is_Some {A} (P : A -> Prop) `{forall x, Decision (P x)} (l : list A) x :
  x ∈ l -> P x -> is_Some (last (filter P l)).
Proof.
  intros Hin HP. assert (x ∈ filter P l) as Hf by (by apply list_elem_of_filter).
  destruct (filter P l) as [|y l'] using rev_ind.
  - by apply elem_of_nil in Hf.
  - rewrite last_snoc. eauto.
Qed.

Lemma fold_key_present k tuples o t :
  t ∈ tuples -> unique_key t = Some k -> is_Some (fold_key k tuples o).
Proof.
  intros Hin Hk.
  destruct (last_filter_is_Some (fun t => has_key k t = true) tuples t Hin) as [t' Ht'].
  { by apply has_key_true. }
  destruct (fold_key_written k tuples o t' Ht') as (r & -> & _). eauto.
Qed.

(* ===================================================================== *)
(** * The persistence layer: the claims *)
(* ===================================================================== *)

Lemma insert_or_replace_same new tbl :
  filter (fun r => Runs.run_id r = Runs.run_id new) (insert_or_replace new tbl) = [new].
Proof.
  unfold insert_or_replace. rewrite filter_app, filter_singleton_True by done.
  induction tbl as [|r rest IH]; [done|].
  rewrite filter_cons. case_decide; [|done].
  by rewrite filter_cons_False by tauto.
Qed.

Lemma insert_or_replace_others new tbl :
  filter (fun r => Runs.run_id r ≠ Runs.run_id new) (insert_or_replace new tbl) =
  filter (fun r => Runs.run_id r ≠ Runs.run_id new) tbl.
Proof.
  unfold insert_or_replace.
  rewrite filter_app, filter_singleton_False, app_nil_r by tauto.
  induction tbl as [|r rest IH]; [done|].
  rewrite filter_cons. case_decide; [|done].
  rewrite filter_cons_True by done. by rewrite IH.
Qed.

Section IngestClaims.
Context `{TzDb}.

(** The databases [init_db] and [ingest_prices] produce keep the non-NULL
    entries of the primary-key index distinct. *)
Lemma reachable_keys_unique db : reachable db -> keys_unique (db_prices db).
Proof.
  induction 1 as [|env df rng interval run_id note db Hreach IH].
  - apply NoDup_nil_2.
  - destruct (ingest_prices env df rng interval run_id note db) as [[id|e] db'] eqn:Hcall.
    + apply ingest_prices_ok in Hcall as (_ & tuples & _ & _ & Hex & _).
      simpl. by eapply keys_unique_executemany.
    + apply ingest_prices_err in Hcall as ->. done.
Qed.

(** C1, as corrected.  Running [ingest_prices] a second time on the same
    table, range and interval (the clock, the run id and the note may
    differ), when no 'interval' cell of the table is missing: the second call
    succeeds too; the prices table has as many rows as after the first call;
    every row keeps its key columns, its datetime_local and its datetime_tr;
    and under the key of every tuple of the batch the nine columns the upsert
    assigns hold the values of the latest tuple with that key, stamped by the
    second call. *)
Theorem ingest_prices_rerun e1 e2 df rng interval rid1 rid2 note1 note2 db id1 db1 :
  intervals_known df ->
  ingest_prices e1 df rng interval rid1 note1 db = (Ok id1, db1) ->
  exists id2 db2 tuples,
    ingest_prices e2 df rng interval rid2 note2 db1 = (Ok id2, db2) /\
    d_db df rng interval (strftime (now e2)) id2 = Ok tuples /\
    length (db_prices db2) = length (db_prices db1) /\
    map kept_fields (db_prices db2) = map kept_fields (db_prices db1) /\
    Forall (fun t => is_Some (unique_key t)) tuples /\
    (forall k t,
        last (filter (fun t => has_key k t = true) tuples) = Some t ->
        exists r, lookup_key k (db_prices db2) = Some r /\
                  written_fields r = written_fields t) /\
    (keys_unique (db_prices db) -> keys_unique (db_prices db2)).
Proof.
  intros Hknown Hcall1.
  apply ingest_prices_ok in Hcall1 as (_ & tuples1 & Hd1 & Hb1 & Hex1 & _).
  set (id2 := default (uuid4 e2) rid2).
  destruct (d_db_restamp _ _ _ _ _ (strftime (now e2)) id2 _ Hd1)
    as (strings & Ht1 & Hd2).
  set (tuples2 := map (tuple_of df rng interval (strftime (now e2)) id2 strings) (rows df))
    in *.
  assert (Forall (fun t => insert_checks t = Ok tt) tuples2) as Hchecks.
  { apply executemany_checks in Hex1. subst tuples1 tuples2.
    rewrite Forall_map in Hex1 |- *. eapply Forall_impl; [exact Hex1|].
    intros r Hr. simpl in *. rewrite <- Hr. apply insert_checks_kept.
    apply kept_fields_tuple_of. }
  destruct (executemany_total tuples2 (db_prices db1) Hchecks) as [prices2 Hex2].
  assert (bindings_check df tuples2 = Ok tt) as Hb2.
  { revert Hb1. unfold bindings_check. subst tuples1 tuples2.
    by destruct (rows df). }
  exists id2, {| db_runs :=
                   insert_or_replace
                     {| Runs.run_id := id2;
                        Runs.started_at := strftime (now e2);
                        Runs.rng := rng;
                        Runs.interval := interval;
                        Runs.n_rows := Z.of_nat (length tuples2);
                        Runs.note := note2 |}
                     (db_runs db1);
                 db_prices := prices2 |}, tuples2.
  assert (Forall (fun t => is_Some (unique_key t)) tuples2) as Hkeys.
  { subst tuples2. rewrite Forall_map. rewrite Forall_forall. intros r Hr. simpl.
    apply tuple_of_has_key; [done..|].
    rewrite Forall_map, Forall_forall in Hchecks. by apply Hchecks. }
  assert (map kept_fields prices2 = map kept_fields (db_prices db1)) as Hkept.
  { apply (executemany_all_present _ _ _ Hex2).
    subst tuples2. rewrite Forall_map, Forall_forall. intros r Hr. simpl.
    rewrite Forall_map, Forall_forall in Hkeys. destruct (Hkeys r Hr) as [k Hk].
    exists k. split; [done|].
    destruct (decide (k ∈ omap unique_key (db_prices db1))) as [|Hnot]; [done|].
    exfalso. apply lookup_key_None in Hnot.
    rewrite (lookup_key_executemany k _ _ _ Hex1) in Hnot.
    destruct (fold_key_present k tuples1 (lookup_key k (db_prices db))
                (tuple_of df rng interval (strftime (now e1)) id1 strings r))
      as [r' Hr'].
    - subst tuples1. apply list_elem_of_fmap. exists r. done.
    - rewrite <- Hk. apply unique_key_kept, kept_fields_tuple_of.
    - congruence. }
  split.
  { unfold ingest_prices. fold id2. rewrite Hd2. simpl. rewrite Hb2. simpl.
    by rewrite Hex2. }
  split; [done|]. simpl. split.
  { rewrite <- (length_map kept_fields prices2), Hkept. by rewrite length_map. }
  split; [done|]. split; [done|]. split.
  - intros k t Hlast. rewrite (lookup_key_executemany k _ _ _ Hex2).
    by apply fold_key_written.
  - intros Hu. eapply keys_unique_executemany; [exact Hex2|].
    by eapply keys_unique_executemany.
Qed.

(** C3, as corrected.  A table that has a 'datetime' column and lacks a
    required column makes [ingest_prices] raise and leaves the database as it
    was.  The exception is the ValueError that lists the missing columns when
    the 'datetime' column holds datetimes (tz-aware or naive); on any other
    dtype the datetime conversion raises first. *)
Theorem ingest_prices_missing_column env df rng interval run_id note db c :
  has_column df "datetime" = true ->
  c ∈ REQUIRED ->
  has_column df c = false ->
  exists e,
    ingest_prices env df rng interval run_id note db = (Err e, db) /\
    match dtype_datetime df with
    | ObjectDtype => e = NotDatetimeLike
    | _ => exists missing,
             e = MissingRequiredColumns missing /\ c ∈ missing /\
             missing = filter (fun c => negb (has_column df c)) REQUIRED
    end.
Proof.
  intros Hdt Hreq Hc. unfold ingest_prices, d_db. rewrite Hdt. simpl.
  assert (c ∈ filter (fun c => negb (has_column df c)) REQUIRED) as Hin.
  { apply list_elem_of_filter. split; [|done]. by rewrite Hc. }
  assert (bool_decide (filter (fun c => negb (has_column df c)) REQUIRED = []) = false)
    as Hne.
  { apply bool_decide_eq_false. intros Hnil. rewrite Hnil in Hin.
    by apply elem_of_nil in Hin. }
  destruct (dtype_datetime df); simpl; rewrite ?Hne; simpl; eexists; (split; [done|]); eauto.
Qed.

(** C8, as corrected.  A call of [ingest_prices] that returns has returned
    the run id it was given, or the generated one when it was given none; the
    runs table then holds exactly one row for that id, with the count of the
    lines of the table, and its rows for other ids are as before.  No price
    row is deleted or moved and no row loses its key, datetime_local or
    datetime_tr; a price row with which no tuple of the batch conflicts is
    left as it was, whether or not the run id had been used before. *)
Theorem ingest_prices_run_log env df rng interval run_id note db id db' :
  ingest_prices env df rng interval run_id note db = (Ok id, db') ->
  id = default (uuid4 env) run_id /\
  filter (fun r => Runs.run_id r = id) (db_runs db') =
    [{| Runs.run_id := id;
        Runs.started_at := strftime (now env);
        Runs.rng := rng;
        Runs.interval := interval;
        Runs.n_rows := Z.of_nat (length (rows df));
        Runs.note := note |}] /\
  filter (fun r => Runs.run_id r ≠ id) (db_runs db') =
    filter (fun r => Runs.run_id r ≠ id) (db_runs db) /\
  map kept_fields (db_prices db) `prefix_of` map kept_fields (db_prices db') /\
  exists tuples,
    d_db df rng interval (strftime (now env)) id = Ok tuples /\
    forall i r,
      db_prices db !! i = Some r ->
      Forall (fun t => conflicts t r = false) tuples ->
      db_prices db' !! i = Some r.
Proof.
  intros Hcall.
  apply ingest_prices_ok in Hcall as (Hid & tuples & Hd & _ & Hex & Hruns).
  split; [done|]. rewrite Hruns.
  destruct (d_db_ok _ _ _ _ _ _ Hd) as (strings & _ & _ & _ & _ & Htuples).
  assert (length tuples = length (rows df)) as -> by (subst tuples; apply length_map).
  split; [|split; [|split]].
  - apply (insert_or_replace_same
             {| Runs.run_id := id; Runs.started_at := strftime (now env);
                Runs.rng := rng; Runs.interval := interval;
                Runs.n_rows := Z.of_nat (length (rows df)); Runs.note := note |}).
  - apply (insert_or_replace_others
             {| Runs.run_id := id; Runs.started_at := strftime (now env);
                Runs.rng := rng; Runs.interval := interval;
                Runs.n_rows := Z.of_nat (length (rows df)); Runs.note := note |}).
  - by eapply executemany_kept_prefix.
  - exists tuples. split; [done|]. intros i r Hi Hall.
    by eapply executemany_lookup_pos.
Qed.

(** C9.  After a call of [ingest_prices] that returns, the row that was
    stored under a key is still stored under it with the same ticker,
    datetime_utc, interval, datetime_local and datetime_tr.  If tuples of the
    batch have that key, the row is the stored one with open, high, low,
    close, volume, adjclose, range_str, ingested_at and run_id taken from the
    latest of them, and nothing else changed; if none has, it is the stored
    row. *)
Theorem ingest_prices_conflict env df rng interval run_id note db id db' k old :
  ingest_prices env df rng interval run_id note db = (Ok id, db') ->
  lookup_key k (db_prices db) = Some old ->
  exists tuples new,
    d_db df rng interval (strftime (now env)) id = Ok tuples /\
    lookup_key k (db_prices db') = Some new /\
    natural_key new = natural_key old /\
    Prices.datetime_local new = Prices.datetime_local old /\
    Prices.datetime_tr new = Prices.datetime_tr old /\
    match last (filter (fun t => has_key k t = true) tuples) with
    | Some t => written_fields new = written_fields t /\ new = do_update old t
    | None => new = old
    end.
Proof.
  intros Hcall Hold.
  apply ingest_prices_ok in Hcall as (_ & tuples & Hd & _ & Hex & _).
  exists tuples. eexists. split; [done|].
  rewrite (lookup_key_executemany k _ _ _ Hex), Hold, fold_key_stored.
  split; [done|].
  by destruct (last _).
Qed.

(** C10, as corrected.  For a table whose 'datetime' column is naive, every
    tuple [ingest_prices] builds has datetime_utc and datetime_local both
    equal to the formatted naive value: the naive value is read as UTC.  A
    row the call inserts under a key that was free stores the two equal
    strings, and a prices table in which every row had these two columns
    equal has it after the call. *)
Theorem ingest_prices_naive env df rng interval run_id note db id db' :
  dtype_datetime df = DatetimeNaive ->
  ingest_prices env df rng interval run_id note db = (Ok id, db') ->
  exists tuples,
    d_db df rng interval (strftime (now env)) id = Ok tuples /\
    map Prices.datetime_utc tuples = map (fun r => strftime_ns (c_datetime r)) (rows df) /\
    map Prices.datetime_local tuples = map (fun r => strftime_ns (c_datetime r)) (rows df) /\
    Forall utc_is_local tuples /\
    (forall k r, lookup_key k (db_prices db) = None ->
                 lookup_key k (db_prices db') = Some r -> utc_is_local r) /\
    (Forall utc_is_local (db_prices db) -> Forall utc_is_local (db_prices db')).
Proof.
  intros Hnaive Hcall.
  apply ingest_prices_ok in Hcall as (_ & tuples & Hd & _ & Hex & _).
  exists tuples. split; [done|].
  destruct (d_db_ok _ _ _ _ _ _ Hd) as (strings & Hs & _ & _ & _ & ->).
  rewrite Hnaive in Hs. injection Hs as <-.
  assert (forall r, utc_is_local
            (tuple_of df rng interval (strftime (now env)) id
               (fun t => (strftime_ns t, strftime_ns t,
                          strftime_ns (wall_clock TZ_ISTANBUL t))) r)) as Hloc by done.
  split; [by rewrite map_map|]. split; [by rewrite map_map|].
  assert (Forall utc_is_local
            (map (tuple_of df rng interval (strftime (now env)) id
                    (fun t => (strftime_ns t, strftime_ns t,
                               strftime_ns (wall_clock TZ_ISTANBUL t)))) (rows df)))
    as Hall.
  { rewrite Forall_map. apply Forall_forall. intros r _. apply Hloc. }
  split; [done|]. split.
  - intros k r Hfree. rewrite (lookup_key_executemany k _ _ _ Hex), Hfree.
    intros Hr. apply fold_key_inserted in Hr as (t & Hin & Hkept).
    rewrite Forall_forall in Hall. specialize (Hall t Hin).
    unfold utc_is_local, kept_fields in *. injection Hkept as _ -> _ -> _. done.
  - intros Hdb. by eapply (executemany_Forall utc_is_local).
Qed.

End IngestClaims.

(* ===================================================================== *)
(** * The persistence layer: closed runs *)
(* ===================================================================== *)

Section IngestRuns.
#[local] Existing Instance fixed_tz.

Lemma first_ingest :
  ingest_prices env1 batch_utc "12d" "5m" None None (init_db None) =
  (Ok "run-1",
   {| db_runs := [{| Runs.run_id := "run-1";
                     Runs.started_at := "2023-11-14 22:15:00";
                     Runs.rng := "12d";
                     Runs.interval := "5m";
                     Runs.n_rows := 1;
                     Runs.note := None |}];
      db_prices := [stored_bar] |}).
Proof. vm_compute. reflexivity. Qed.

(** The table [fetch_batch] returns when no symbol succeeded is refused by
    [ingest_prices]: its 'datetime' column has dtype object. *)
Lemma empty_table_is_refused :
  ingest_prices env1 EMPTY_TABLE "12d" "5m" None None (init_db None) =
  (Err NotDatetimeLike, init_db None).
Proof. vm_compute. reflexivity. Qed.

(** C1, the claim as stated fails.  A bar first ingested from a table in
    Europe/Istanbul time, then ingested twice from an identical UTC table:
    both later calls succeed and the row count stays at one, but the stored
    datetime_local is still the Istanbul string of the first ingestion, not
    the value of the latest call. *)
Lemma rerun_keeps_old_datetime_local :
  let db0 := snd (ingest_prices env1 batch_istanbul "12d" "5m" None None (init_db None)) in
  let call1 := ingest_prices env2 batch_utc "12d" "5m" None None db0 in
  let call2 := ingest_prices env3 batch_utc "12d" "5m" None None (snd call1) in
  fst call1 = Ok "run-2" /\
  fst call2 = Ok "run-3" /\
  length (db_prices (snd call2)) = 1%nat /\
  (* the value of the latest call *)
  match d_db batch_utc "12d" "5m" (strftime (now env3)) "run-3" with
  | Ok tuples => map Prices.datetime_local tuples
  | Err _ => []
  end = [Some "2023-11-14 22:13:20"] /\
  (* the value stored *)
  map Prices.datetime_local (db_prices (snd call2)) = [Some "2023-11-15 01:13:20"].
Proof. vm_compute. repeat split; reflexivity. Qed.

Lemma ingest_prices_rerun_witness :
  intervals_known batch_utc /\
  ingest_prices env1 batch_utc "12d" "5m" None None (init_db None) =
    (Ok "run-1", {| db_runs := db_runs (snd (ingest_prices env1 batch_utc "12d" "5m"
                                                None None (init_db None)));
                    db_prices := [stored_bar] |}) /\
  exists id2 db2 tuples,
    ingest_prices env2 batch_utc "12d" "5m" None None
      {| db_runs := db_runs (snd (ingest_prices env1 batch_utc "12d" "5m"
                                    None None (init_db None)));
         db_prices := [stored_bar] |} = (Ok id2, db2) /\
    d_db batch_utc "12d" "5m" (strftime (now env2)) id2 = Ok tuples /\
    length (db_prices db2) = 1%nat /\
    map kept_fields (db_prices db2) = map kept_fields [stored_bar] /\
    Forall (fun t => is_Some (unique_key t)) tuples /\
    (forall k t,
        last (filter (fun t => has_key k t = true) tuples) = Some t ->
        exists r, lookup_key k (db_prices db2) = Some r /\
                  written_fields r = written_fields t) /\
    (keys_unique (db_prices (init_db None)) -> keys_unique (db_prices db2)).
Proof.
  assert (intervals_known batch_utc) as Hknown.
  { intros _. repeat constructor. eexists. reflexivity. }
  assert (ingest_prices env1 batch_utc "12d" "5m" None None (init_db None) =
          (Ok "run-1", {| db_runs := db_runs (snd (ingest_prices env1 batch_utc "12d" "5m"
                                                None None (init_db None)));
                          db_prices := [stored_bar] |})) as Hcall.
  { vm_compute. reflexivity. }
  split; [exact Hknown|]. split; [exact Hcall|].
  exact (ingest_prices_rerun env1 env2 batch_utc "12d" "5m" None None None None
           (init_db None) "run-1" _ Hknown Hcall).
Defined.

(** C2, the code against its own comment ("unique bar per
    ticker/datetime_utc/interval").  A table whose 'interval' cell is
    missing, ingested twice into a new database: both calls succeed, and the
    prices table holds two rows with the same ticker, the same datetime_utc
    and the same (NULL) interval. *)
Lemma null_interval_rows_repeat :
  let call1 := ingest_prices env1 batch_null_interval "12d" "5m" None None (init_db None) in
  let call2 := ingest_prices env2 batch_null_interval "12d" "5m" None None (snd call1) in
  fst call1 = Ok "run-1" /\
  fst call2 = Ok "run-2" /\
  map natural_key (db_prices (snd call1)) =
    [(Some "A", Some "2023-11-14 22:13:20", None)] /\
  map natural_key (db_prices (snd call2)) =
    [(Some "A", Some "2023-11-14 22:13:20", None);
     (Some "A", Some "2023-11-14 22:13:20", None)].
Proof. vm_compute. repeat split; reflexivity. Qed.

(** C3, the claim as stated fails.  A table with a 'datetime' column of
    dtype object and no 'volume' column: the call raises before any write,
    but what it raises is the error of the datetime conversion, not the
    ValueError for the missing column. *)
Lemma object_datetime_raises_first :
  has_column batch_object_no_volume "datetime" = true /\
  has_column batch_object_no_volume "volume" = false /\
  ingest_prices env1 batch_object_no_volume "12d" "5m" None None (init_db None) =
    (Err NotDatetimeLike, init_db None).
Proof. vm_compute. repeat split; reflexivity. Qed.

Lemma ingest_prices_missing_column_witness :
  has_column batch_no_volume "datetime" = true /\
  "volume" ∈ REQUIRED /\
  has_column batch_no_volume "volume" = false /\
  exists e,
    ingest_prices env1 batch_no_volume "12d" "5m" None None
      {| db_runs := []; db_prices := [stored_bar] |} =
      (Err e, {| db_runs := []; db_prices := [stored_bar] |}) /\
    exists missing,
      e = MissingRequiredColumns missing /\ "volume" ∈ missing /\
      missing = filter (fun c => negb (has_column batch_no_volume c)) REQUIRED.
Proof.
  assert (has_column batch_no_volume "datetime" = true) as Hdt
    by (vm_compute; reflexivity).
  assert ("volume" ∈ REQUIRED) as Hreq
    by (unfold REQUIRED; do 5 apply list_elem_of_further; apply list_elem_of_here).
  assert (has_column batch_no_volume "volume" = false) as Hc
    by (vm_compute; reflexivity).
  split; [exact Hdt|]. split; [exact Hreq|]. split; [exact Hc|].
  exact (ingest_prices_missing_column env1 batch_no_volume "12d" "5m" None None
           {| db_runs := []; db_prices := [stored_bar] |} "volume" Hdt Hreq Hc).
Defined.

(** C8, the claim as stated fails.  Two calls with the same run id, the
    second with the same bar at another close: the price row the first call
    wrote is rewritten by the second. *)
Lemma same_run_id_rewrites_price_row :
  let call1 := ingest_prices env1 batch_utc "12d" "5m" (Some "r") None (init_db None) in
  let call2 := ingest_prices env2 batch_utc_revised "12d" "5m" (Some "r") None (snd call1) in
  fst call1 = Ok "r" /\
  fst call2 = Ok "r" /\
  map (fun r => (Prices.close r, Prices.ingested_at r, Prices.run_id r))
      (db_prices (snd call1)) = [(Some (54 # 5), "2023-11-14 22:15:00", "r")] /\
  map (fun r => (Prices.close r, Prices.ingested_at r, Prices.run_id r))
      (db_prices (snd call2)) = [(Some (60 # 5), "2023-11-14 22:16:40", "r")].
Proof. vm_compute. repeat split; reflexivity. Qed.

Lemma ingest_prices_run_log_witness :
  let db := {| db_runs := [{| Runs.run_id := "run-1";
                              Runs.started_at := "2023-11-14 22:15:00";
                              Runs.rng := "12d";
                              Runs.interval := "5m";
                              Runs.n_rows := 1;
                              Runs.note := None |}];
               db_prices := [stored_bar] |} in
  let db' := snd (ingest_prices env2 batch_null_interval "60d" "1d" (Some "run-1")
                    (Some "again") db) in
  ingest_prices env2 batch_null_interval "60d" "1d" (Some "run-1") (Some "again") db =
    (Ok "run-1", db') /\
  "run-1" = default (uuid4 env2) (Some "run-1") /\
  filter (fun r => Runs.run_id r = "run-1") (db_runs db') =
    [{| Runs.run_id := "run-1";
        Runs.started_at := strftime (now env2);
        Runs.rng := "60d";
        Runs.interval := "1d";
        Runs.n_rows := Z.of_nat (length (rows batch_null_interval));
        Runs.note := Some "again" |}] /\
  filter (fun r => Runs.run_id r ≠ "run-1") (db_runs db') =
    filter (fun r => Runs.run_id r ≠ "run-1") (db_runs db) /\
  map kept_fields (db_prices db) `prefix_of` map kept_fields (db_prices db') /\
  exists tuples,
    d_db batch_null_interval "60d" "1d" (strftime (now env2)) "run-1" = Ok tuples /\
    forall i r,
      db_prices db !! i = Some r ->
      Forall (fun t => conflicts t r = false) tuples ->
      db_prices db' !! i = Some r.
Proof.
  intros db db'.
  assert (ingest_prices env2 batch_null_interval "60d" "1d" (Some "run-1") (Some "again") db =
          (Ok "run-1", db')) as Hcall by (vm_compute; reflexivity).
  split; [exact Hcall|].
  exact (ingest_prices_run_log env2 batch_null_interval "60d" "1d" (Some "run-1")
           (Some "again") db "run-1" db' Hcall).
Defined.

Lemma ingest_prices_conflict_witness :
  let db := {| db_runs := []; db_prices := [stored_bar] |} in
  let db' := snd (ingest_prices env2 batch_utc_revised "60d" "5m" None None db) in
  ingest_prices env2 batch_utc_revised "60d" "5m" None None db = (Ok "run-2", db') /\
  lookup_key bar_key (db_prices db) = Some stored_bar /\
  exists tuples new,
    d_db batch_utc_revised "60d" "5m" (strftime (now env2)) "run-2" = Ok tuples /\
    lookup_key bar_key (db_prices db') = Some new /\
    natural_key new = natural_key stored_bar /\
    Prices.datetime_local new = Prices.datetime_local stored_bar /\
    Prices.datetime_tr new = Prices.datetime_tr stored_bar /\
    match last (filter (fun t => has_key bar_key t = true) tuples) with
    | Some t => written_fields new = written_fields t /\ new = do_update stored_bar t
    | None => new = stored_bar
    end.
Proof.
  intros db db'.
  assert (ingest_prices env2 batch_utc_revised "60d" "5m" None None db = (Ok "run-2", db'))
    as Hcall by (vm_compute; reflexivity).
  assert (lookup_key bar_key (db_prices db) = Some stored_bar) as Hold
    by (vm_compute; reflexivity).
  split; [exact Hcall|]. split; [exact Hold|].
  exact (ingest_prices_conflict env2 batch_utc_revised "60d" "5m" None None db "run-2" db'
           bar_key stored_bar Hcall Hold).
Defined.

(** C10, the claim as stated fails.  A bar first ingested from a table in
    Europe/Istanbul time and then from a naive table: the stored datetime_utc
    and datetime_local differ, the second being the one of the first
    ingestion. *)
Lemma naive_after_istanbul :
  let db0 := snd (ingest_prices env1 batch_istanbul "12d" "5m" None None (init_db None)) in
  let call := ingest_prices env2 batch_naive "12d" "5m" None None db0 in
  fst call = Ok "run-2" /\
  map (fun r => (Prices.datetime_utc r, Prices.datetime_local r, Prices.run_id r))
      (db_prices (snd call)) =
    [(Some "2023-11-14 22:13:20", Some "2023-11-15 01:13:20", "run-2")].
Proof. vm_compute. repeat split; reflexivity. Qed.

Lemma ingest_prices_naive_witness :
  let db := init_db None in
  let db' := snd (ingest_prices env1 batch_naive "12d" "5m" None None db) in
  dtype_datetime batch_naive = DatetimeNaive /\
  ingest_prices env1 batch_naive "12d" "5m" None None db = (Ok "run-1", db') /\
  exists tuples,
    d_db batch_naive "12d" "5m" (strftime (now env1)) "run-1" = Ok tuples /\
    map Prices.datetime_utc tuples =
      map (fun r => strftime_ns (c_datetime r)) (rows batch_naive) /\
    map Prices.datetime_local tuples =
      map (fun r => strftime_ns (c_datetime r)) (rows batch_naive) /\
    Forall utc_is_local tuples /\
    (forall k r, lookup_key k (db_prices db) = None ->
                 lookup_key k (db_prices db') = Some r -> utc_is_local r) /\
    (Forall utc_is_local (db_prices db) -> Forall utc_is_local (db_prices db')).
Proof.
  intros db db'.
  assert (ingest_prices env1 batch_naive "12d" "5m" None None db = (Ok "run-1", db'))
    as Hcall by (vm_compute; reflexivity).
  split; [reflexivity|]. split; [exact Hcall|].
  exact (ingest_prices_naive env1 batch_naive "12d" "5m" None None db "run-1" db'
           eq_refl Hcall).
Defined.

End IngestRuns.

(* ===================================================================== *)
(** * The chart fetcher *)
(* ===================================================================== *)

(** ** The loop over the hosts *)

Lemma yielded_cons o os :
  is_yield o = false -> yielded (o :: attempts os) = yielded (attempts os).
Proof.
  unfold yielded. intros Ho. rewrite last_cons.
  destruct (last (attempts os)); [done|]. by destruct o.
Qed.

Lemma last_exception_fails e os :
  last_exception (Fails e :: os) =
  Some (default e (last_exception os)).
Proof.
  unfold last_exception. simpl. rewrite last_cons. by destruct (last _).
Qed.

Lemma last_exception_rate_limited os :
  last_exception (RateLimited :: os) = last_exception os.
Proof. done. Qed.

Lemma last_exception_snoc_yield os data :
  last_exception (os ++ [Yields data]) = last_exception os.
Proof. unfold last_exception. rewrite omap_app. simpl. by rewrite app_nil_r. Qed.

Lemma attempts_no_yield os :
  Forall (fun o => is_yield o = false) os -> attempts os = os.
Proof.
  induction 1 as [|o os Ho _ IH]; [done|].
  simpl. rewrite IH. by destruct o.
Qed.

Lemma attempts_first_yield os i data :
  os !! i = Some (Yields data) ->
  Forall (fun o => is_yield o = false) (take i os) ->
  attempts os = take i os ++ [Yields data].
Proof.
  revert i. induction os as [|o os IH]; intros i Hi Hbefore; [done|].
  destruct i as [|i]; simpl in *.
  - by injection Hi as ->.
  - apply Forall_cons in Hbefore as [Ho Hbefore].
    rewrite (IH i Hi Hbefore). by destruct o.
Qed.

Lemma length_attempts os : length (attempts os) <= length os.
Proof.
  induction os as [|o os IH]; simpl; [done|].
  destruct o; simpl; lia.
Qed.

Section Loop.
Context (symbol rng interval : string) (include_prepost : bool).

Let chart (host : string) : request := Chart host symbol rng interval include_prepost.

(** The loop ends with the body of the first reply that yields one, with the
    last exception raised on the way (or the one it started with), and has
    sent one request per outcome it went through. *)
Lemma request_data_spec hosts last_exc w :
  let os := map classify
              (replies_from (server w) (length (sent w)) (map chart hosts)) in
  request_data symbol rng interval include_prepost hosts last_exc w =
  (yielded (attempts os),
   match last_exception (attempts os) with Some e => Some e | None => last_exc end,
   {| server := server w;
      sent := sent w ++ take (length (attempts os)) (map chart hosts) |}).
Proof.
  revert last_exc w. induction hosts as [|host rest IH]; intros last_exc w.
  - simpl. rewrite app_nil_r. by destruct w.
  - simpl. unfold sess_get. fold (chart host).
    destruct (server w (length (sent w)) (chart host)) as [e|status body] eqn:Hreply;
      simpl.
    + rewrite IH. simpl. rewrite length_app, Nat.add_1_r. simpl.
      rewrite yielded_cons by done. rewrite last_exception_fails.
      rewrite <- app_assoc. simpl.
      by destruct (last_exception _).
    + destruct (status =? 429)%Z; simpl.
      { rewrite IH. simpl. rewrite length_app, Nat.add_1_r. simpl.
        rewrite yielded_cons by done. rewrite last_exception_rate_limited.
        by rewrite <- app_assoc. }
      destruct (is_error_status status); simpl.
      { rewrite IH. simpl. rewrite length_app, Nat.add_1_r. simpl.
        rewrite yielded_cons by done. rewrite last_exception_fails.
        rewrite <- app_assoc. simpl.
        by destruct (last_exception _). }
      destruct body as [data|]; simpl.
      * done.
      * rewrite IH. simpl. rewrite length_app, Nat.add_1_r. simpl.
        rewrite yielded_cons by done. rewrite last_exception_fails.
        rewrite <- app_assoc. simpl.
        by destruct (last_exception _).
Qed.

End Loop.

(** ** [fetch_yahoo_chart]: the requests and the failure *)

Section Fetch.
Context `{Pandas}.

(** What a fetch does, from the outcomes of its data requests. *)
Lemma fetch_yahoo_chart_spec symbol rng interval include_prepost w :
  let os := attempts (outcomes symbol rng interval include_prepost w) in
  fetch_yahoo_chart symbol rng interval include_prepost w =
  (match yielded os with
   | None | Some JNull => Err (FetchFailed symbol (last_exception os))
   | Some data => parse_chart symbol rng interval data
   end,
   {| server := server w;
      sent := sent w ++ Warmup symbol ::
                take (length os) (data_requests symbol rng interval include_prepost) |}).
Proof.
  unfold fetch_yahoo_chart, sess_get, outcomes, data_requests.
  rewrite request_data_spec. simpl sent. simpl server.
  rewrite length_app, Nat.add_1_r, <- app_assoc. simpl.
  match goal with |- context [yielded ?l] => set (os := l) end.
  destruct (yielded os) as [[]|]; by destruct (last_exception os).
Qed.

(** C7, as corrected.  A fetch sends the warm-up and then the data request to
    the two hosts in turn, at most four times, and nothing else.  It stops
    at the first reply that is not a 429, has no error status and parses;
    that body is the one it goes on with.  If none of the four replies is
    such, it fails with the RuntimeError "Failed to fetch", which carries the
    last exception raised by an attempt (a transport error, an HTTP error
    status other than 429, a body that does not parse), and carries none when
    no attempt raised: a 429 reply is not recorded. *)
Theorem fetch_yahoo_chart_attempts symbol rng interval include_prepost w :
  let os := outcomes symbol rng interval include_prepost w in
  let call := fetch_yahoo_chart symbol rng interval include_prepost w in
  data_requests symbol rng interval include_prepost =
    [Chart "query1.finance.yahoo.com" symbol rng interval include_prepost;
     Chart "query2.finance.yahoo.com" symbol rng interval include_prepost;
     Chart "query1.finance.yahoo.com" symbol rng interval include_prepost;
     Chart "query2.finance.yahoo.com" symbol rng interval include_prepost] /\
  (exists n, n <= 4 /\
     sent call.2 = sent w ++ Warmup symbol ::
                     take n (data_requests symbol rng interval include_prepost) /\
     (forall i data,
         os !! i = Some (Yields data) ->
         Forall (fun o => is_yield o = false) (take i os) ->
         n = S i /\
         call.1 = match data with
                  | JNull => Err (FetchFailed symbol (last_exception (take i os)))
                  | _ => parse_chart symbol rng interval data
                  end) /\
     (Forall (fun o => is_yield o = false) os ->
         n = 4 /\
         call.1 = Err (FetchFailed symbol (last_exception os)))).
Proof.
  intros os call. split; [done|].
  exists (length (attempts os)).
  assert (length (attempts os) <= 4) as Hle by exact (length_attempts os).
  split; [done|]. subst call. rewrite fetch_yahoo_chart_spec. fold os.
  assert (length os = 4%nat) as Hlen by done. clearbody os. cbn [fst snd sent].
  split; [done|]. split.
  - intros i data Hi Hbefore.
    rewrite (attempts_first_yield os i data Hi Hbefore).
    assert (i < length os) as Hlt by (by eapply lookup_lt_Some).
    rewrite length_app, length_take_le by lia. simpl.
    split; [lia|].
    unfold yielded. rewrite last_snoc, last_exception_snoc_yield. by destruct data.
  - intros Hnone. rewrite (attempts_no_yield os Hnone).
    split; [done|].
    assert (yielded os = None) as ->; [|done].
    unfold yielded. destruct (last os) as [o|] eqn:Hlast; [|done].
    apply last_Some_elem_of in Hlast. rewrite Forall_forall in Hnone.
    specialize (Hnone o Hlast). by destruct o.
Qed.

End Fetch.

(** C7, the claim as stated fails.  Every data request answered with HTTP
    429: the four attempts are made and the fetch fails, but the failure
    carries no error at all, although the last error observed was the 429 of
    the fourth attempt. *)
Lemma all_rate_limited_carries_nothing :
  let call := @fetch_yahoo_chart pd "A" "12d" "5m" false always_429 in
  call.1 = Err (FetchFailed "A" None) /\
  sent call.2 = Warmup "A" :: data_requests "A" "12d" "5m" false /\
  last_observed_error (outcomes "A" "12d" "5m" false always_429) = Some (HTTPError 429).
Proof. vm_compute. repeat split; reflexivity. Qed.

(** ** The table of a response *)


(** *** Series, index and alignment *)

Lemma length_Series v : length (Series v).2 = index_length (Series v).1.
Proof. destruct v; simpl; try done. by rewrite !length_map. Qed.

Lemma length_labels ix : length (labels ix) = index_length ix.
Proof. destruct ix; simpl; by rewrite length_map, ?length_seq. Qed.

Lemma length_reindex ix values table :
  length (reindex ix values table) = index_length table.
Proof.
  unfold reindex. case_bool_decide; by rewrite !length_map, length_labels.
Qed.

(** A Series indexed by position against a table indexed by position: what
    is looked up for each line of the table. *)
Lemma found_by_position m n (values : list (option Q)) :
  length values = m ->
  map (fun l => i ← get_loc (RangeIndex m) l; values !! i) (labels (RangeIndex n)) =
  map (fun i => values !! i) (seq 0 n).
Proof.
  intros Hlen. simpl. rewrite map_map. apply map_ext. intros i. simpl.
  case_decide as Hi; [done|]. symmetry. apply lookup_ge_None. lia.
Qed.

Lemma all_found_by_position n (values : list (option Q)) :
  Forall is_Some (map (fun i => values !! i) (seq 0 n)) <-> n <= length values.
Proof.
  rewrite Forall_map, Forall_forall. split.
  - intros Hall. destruct (decide (n <= length values)) as [|Hgt]; [done|].
    destruct (Hall (length values)) as [x Hx].
    + apply elem_of_seq. lia.
    + apply lookup_lt_Some in Hx. lia.
  - intros Hle i Hi. apply elem_of_seq in Hi. apply lookup_lt_is_Some. lia.
Qed.

(** The cell of line [i]: the [i]-th value of the Series, as it is when the
    Series has a value for every line, as a float64 when it is shorter, and
    NaN past its end. *)
Lemma reindex_by_position m n (values : list (option Q)) i :
  length values = m -> i < n ->
  reindex (RangeIndex m) values (RangeIndex n) !! i =
  Some (if decide (n <= m) then default None (values !! i)
        else float64 <$> default None (values !! i)).
Proof.
  intros Hlen Hi. unfold reindex. rewrite (found_by_position m n values Hlen).
  assert (seq 0 n !! i = Some i) as Hseq by (by apply lookup_seq_lt).
  case_bool_decide as Hall; apply all_found_by_position in Hall || 
    (assert (~ n <= length values) as Hall' by (by rewrite <- all_found_by_position));
    rewrite !list_lookup_fmap, Hseq; simpl; case_decide; try done; lia.
Qed.


(** Positions and keys never meet: a Series indexed by one against a table
    indexed by the other gives NaN in every line. *)
Lemma reindex_other_kind ix values table :
  match ix, table with
  | RangeIndex _, Labels _ | Labels _, RangeIndex _ => True
  | _, _ => False
  end ->
  Forall (fun c => c = None) (reindex ix values table).
Proof.
  intros Hkind. unfold reindex.
  assert (map (fun l => i ← get_loc ix l; values !! i) (labels table) =
          replicate (index_length table) None) as ->.
  { assert (forall A (l : list A),
              map (fun _ => @None (option Q)) l = replicate (length l) None) as Hconst.
    { intros A l. induction l as [|x l IH]; simpl; [done | by f_equal]. }
    destruct ix as [m|ks], table as [n|ks']; try done; simpl; rewrite map_map; simpl.
    - apply Hconst.
    - rewrite Hconst. by rewrite length_seq. }
  case_bool_decide; apply Forall_forall; intros c Hc;
    apply list_elem_of_fmap in Hc as (x & -> & Hx);
    by apply elem_of_replicate in Hx as [-> _].
Qed.

Section Lines.
Context (symbol rng interval : string) (dts : list (option Z)).
Context (open high low close volume adjclose : list (option Q)).

Let lines := frame_lines symbol rng interval dts open high low close volume adjclose.

Lemma length_frame_lines : length lines = length dts.
Proof. apply length_imap. Qed.

Lemma frame_lines_datetime : map c_datetime lines = dts.
Proof.
  apply list_eq. intros i. subst lines. unfold frame_lines.
  change (map c_datetime) with (fmap (M:=list) c_datetime).
  rewrite list_lookup_fmap, list_lookup_imap. by destruct (dts !! i).
Qed.

Lemma frame_lines_adjclose :
  length adjclose = length dts -> map c_adjclose lines = adjclose.
Proof.
  intros Hlen. apply list_eq. intros i. subst lines. unfold frame_lines.
  change (map c_adjclose) with (fmap (M:=list) c_adjclose).
  rewrite list_lookup_fmap, list_lookup_imap. unfold cell.
  destruct (dts !! i) as [t|] eqn:Ht; simpl.
  - apply lookup_lt_Some in Ht. rewrite <- Hlen in Ht.
    apply lookup_lt_is_Some in Ht as [a ->]. done.
  - apply lookup_ge_None in Ht. rewrite <- Hlen in Ht.
    symmetry. by apply lookup_ge_None.
Qed.

Lemma frame_lines_ticker : Forall (fun r => c_ticker r = Some symbol) lines.
Proof.
  apply Forall_forall. intros r Hr. subst lines. unfold frame_lines in Hr.
  apply elem_of_lookup_imap in Hr as (i & t & -> & _). done.
Qed.

Lemma frame_lines_tags :
  Forall (fun r => c_ticker r = Some symbol /\ c_range r = Some rng /\
                   c_interval r = Some interval) lines.
Proof.
  apply Forall_forall. intros r Hr. subst lines. unfold frame_lines in Hr.
  apply elem_of_lookup_imap in Hr as (i & t & -> & _). done.
Qed.

End Lines.

Lemma length_to_datetime_series zs ts :
  to_datetime_series zs = Ok ts -> length ts = length zs.
Proof.
  revert ts. induction zs as [|z zs IH]; intros ts; simpl.
  - by intros [= <-].
  - destruct (to_datetime_s z); simpl; [|discriminate].
    destruct (to_datetime_series zs) as [ts'|]; simpl; [|discriminate].
    intros [= <-]. simpl. f_equal. by apply IH.
Qed.

Section Frame.
Context `{Pandas}.

Lemma numeric_column_ok table v cells :
  numeric_column table v = Ok cells ->
  exists numbers,
    to_numeric (Series v).2 = Ok numbers /\
    length numbers = index_length (Series v).1 /\
    cells = reindex (Series v).1 numbers table.
Proof.
  unfold numeric_column.
  destruct (to_numeric (Series v).2) as [numbers|e] eqn:Hnum; simpl; [|discriminate].
  intros [= <-]. exists numbers. split; [done|]. split; [|done].
  by rewrite (to_numeric_length _ _ Hnum), length_Series.
Qed.

Lemma length_numeric_column table v cells :
  numeric_column table v = Ok cells -> length cells = index_length table.
Proof.
  intros (numbers & _ & _ & ->)%numeric_column_ok. apply length_reindex.
Qed.

(** [build_frame] read backwards: what a returned table was made from. *)
Lemma build_frame_inv symbol rng interval parts df :
  build_frame symbol rng interval parts = Ok df ->
  exists seconds dts open0 open high0 high low0 low close0 close volume0 volume
         use adjclose,
    astype_int64 (Series (p_timestamps parts)).2 = Ok seconds /\
    to_datetime_series seconds = Ok dts /\
    length dts = index_length (Series (p_timestamps parts)).1 /\
    (dict_get (p_quote_block parts) "open" (JArr []) = Ok open0 /\
     numeric_column (Series (p_timestamps parts)).1 open0 = Ok open) /\
    (dict_get (p_quote_block parts) "high" (JArr []) = Ok high0 /\
     numeric_column (Series (p_timestamps parts)).1 high0 = Ok high) /\
    (dict_get (p_quote_block parts) "low" (JArr []) = Ok low0 /\
     numeric_column (Series (p_timestamps parts)).1 low0 = Ok low) /\
    (dict_get (p_quote_block parts) "close" (JArr []) = Ok close0 /\
     numeric_column (Series (p_timestamps parts)).1 close0 = Ok close) /\
    (dict_get (p_quote_block parts) "volume" (JArr []) = Ok volume0 /\
     numeric_column (Series (p_timestamps parts)).1 volume0 = Ok volume) /\
    adj_matches (p_adj_list parts) (length dts) = Ok use /\
    (if use then numeric_column (Series (p_timestamps parts)).1 (p_adj_list parts)
     else Ok (replicate (length dts) None)) = Ok adjclose /\
    df = {| columns := FRAME_COLUMNS;
            dtype_datetime := DatetimeTZ "UTC";
            rows := sort_values
                      (frame_lines symbol rng interval dts
                         open high low close volume adjclose) |}.
Proof.
  unfold build_frame. cbv zeta.
  set (table := (Series (p_timestamps parts)).1).
  destruct (astype_int64 (Series (p_timestamps parts)).2) as [seconds|e] eqn:Hsec;
    simpl; [|discriminate].
  destruct (to_datetime_series seconds) as [dts|e] eqn:Hdts; simpl; [|discriminate].
  assert (match Series_tz_convert dts (p_tz_name parts) with
          | Ok converted => converted | Err _ => dts end = dts) as ->.
  { by destruct dts. }
  destruct (dict_get (p_quote_block parts) "open" _) as [open0|e]; simpl; [|discriminate].
  destruct (numeric_column table open0) as [open|e] eqn:Ho; simpl; [|discriminate].
  destruct (dict_get (p_quote_block parts) "high" _) as [high0|e]; simpl; [|discriminate].
  destruct (numeric_column table high0) as [high|e] eqn:Hh; simpl; [|discriminate].
  destruct (dict_get (p_quote_block parts) "low" _) as [low0|e]; simpl; [|discriminate].
  destruct (numeric_column table low0) as [low|e] eqn:Hl; simpl; [|discriminate].
  destruct (dict_get (p_quote_block parts) "close" _) as [close0|e]; simpl; [|discriminate].
  destruct (numeric_column table close0) as [close|e] eqn:Hc; simpl; [|discriminate].
  destruct (dict_get (p_quote_block parts) "volume" _) as [volume0|e]; simpl;
    [|discriminate].
  destruct (numeric_column table volume0) as [volume|e] eqn:Hv; simpl; [|discriminate].
  destruct (adj_matches (p_adj_list parts) (length dts)) as [use|e] eqn:Huse; simpl;
    [|discriminate].
  match goal with |- (do _ <- ?c ; _) = _ -> _ =>
    destruct c as [adjclose|e] eqn:Hadj; simpl; [|discriminate] end.
  intros [= <-].
  exists seconds, dts, open0, open, high0, high, low0, low, close0, close,
         volume0, volume, use, adjclose.
  split; [done|]. split; [done|]. split.
  { rewrite (length_to_datetime_series _ _ Hdts), (astype_int64_length _ _ Hsec).
    apply length_Series. }
  repeat (split; [done|]). reflexivity.
Qed.

(** A table was built: its lines in the order of the provider's timestamps,
    one per label of the timestamp Series. *)
Lemma build_frame_ok symbol rng interval parts df :
  build_frame symbol rng interval parts = Ok df ->
  exists use lines,
    adj_matches (p_adj_list parts) (length lines) = Ok use /\
    rows df ≡ₚ lines /\
    length lines = index_length (Series (p_timestamps parts)).1 /\
    (if use then numeric_column (Series (p_timestamps parts)).1 (p_adj_list parts)
     else Ok (replicate (length lines) None)) = Ok (map c_adjclose lines) /\
    Forall (fun r => c_ticker r = Some symbol /\ c_range r = Some rng /\
                     c_interval r = Some interval) lines.
Proof.
  intros Hframe.
  apply build_frame_inv in Hframe
    as (seconds & dts & open0 & open & high0 & high & low0 & low & close0 & close &
        volume0 & volume & use & adjclose & _ & _ & Hlen & _ & _ & _ & _ & _ &
        Huse & Hadj & ->).
  exists use. eexists. simpl.
  rewrite length_frame_lines.
  split; [done|]. split; [apply sort_values_Permutation|]. split; [done|].
  split; [|apply frame_lines_tags].
  rewrite frame_lines_adjclose; [done|].
  destruct use.
  - by rewrite (length_numeric_column _ _ _ Hadj).
  - injection Hadj as <-. apply length_replicate.
Qed.

Lemma parse_chart_ok symbol rng interval data df meta :
  parse_chart symbol rng interval data = Ok (df, meta) ->
  exists parts,
    locate symbol data = Ok parts /\
    build_frame symbol rng interval parts = Ok df /\
    meta = p_meta parts.
Proof.
  unfold parse_chart.
  destruct (locate symbol data) as [parts|e] eqn:Hparts; simpl; [|discriminate].
  destruct (build_frame symbol rng interval parts) as [df'|e] eqn:Hdf; simpl;
    [|discriminate].
  intros [= <- <-]. by exists parts.
Qed.


(** On a document of the shape the provider documents, [locate] finds the
    timestamp array, the first quote block and the adjclose array. *)
Lemma locate_documented symbol meta v vs quote adj :
  locate symbol
    (JObj [("chart",
            JObj [("result",
                   JArr [JObj [("meta", JObj meta);
                               ("timestamp", JArr (v :: vs));
                               ("indicators",
                                JObj [("quote", JArr [JObj quote]);
                                      ("adjclose",
                                       JArr [JObj [("adjclose", adj)]])])]]);
                  ("error", JNull)])]) =
  Ok {| p_meta := JObj meta;
        p_tz_name := default (JStr "UTC") (dict_lookup "timezone" meta);
        p_timestamps := JArr (v :: vs);
        p_quote_block := JObj quote;
        p_adj_list := adj |}.
Proof.
  unfold locate. simpl. unfold py_or. simpl.
  destruct meta as [|m meta], quote as [|q quote]; reflexivity.
Qed.

End Frame.

(** ** The chart fetcher: the claims *)


Section FetchClaims.
Context `{Pandas}.



End FetchClaims.


(* ===================================================================== *)
(** * The batch orchestrator *)
(* ===================================================================== *)

Lemma filter_none {A} (P : A -> Prop) `{forall x, Decision (P x)} (l : list A) :
  Forall (fun x => ~ P x) l -> filter P l = [].
Proof.
  induction 1 as [|x l Hx _ IH]; [done|]. by rewrite filter_cons_False.
Qed.

(** ** The accumulators along a trace *)



(** Every symbol of the trace ends in one of the two mappings. *)
Lemma record_dom (trace : list entry) m e :
  dom (foldl record_meta m trace) ∪ dom (foldl record_error e trace) =
  dom m ∪ dom e ∪ list_to_set (map fst trace).
Proof.
  revert m e. induction trace as [|[s r] trace IH]; intros m e; simpl.
  - set_solver.
  - rewrite IH. unfold record_meta, record_error. simpl.
    destruct r as [[df meta]|err]; rewrite dom_insert_L; set_solver.
Qed.


Section Batch.
Context `{Pandas}.

Lemma fetch_yahoo_chart_warmups symbol rng interval include_prepost w :
  warmups (fetch_yahoo_chart symbol rng interval include_prepost w).2 =
  warmups w ++ [Warmup symbol].
Proof.
  rewrite fetch_yahoo_chart_spec. cbv zeta. unfold warmups. cbn [snd sent].
  rewrite filter_app, filter_cons_True by done. f_equal. f_equal.
  apply filter_none, Forall_take. unfold data_requests. simpl.
  repeat constructor; done.
Qed.


Context (rng interval : string).

Lemma fetch_trace_symbols symbols w :
  map fst (fetch_trace symbols rng interval w) = symbols.
Proof.
  revert w. induction symbols as [|sym rest IH]; intros w; [done|].
  simpl. destruct (fetch_yahoo_chart sym rng interval false w) as [r w1].
  simpl. by rewrite IH.
Qed.


(** The loop, in terms of the trace of its fetches. *)
Lemma fetch_loop_spec symbols i n acc w :
  let trace := fetch_trace symbols rng interval w in
  let out := fetch_loop symbols i n rng interval acc w in
  mjoin (map rows (frames out.1)) =
    mjoin (map rows (frames acc)) ++ mjoin (map entry_rows trace) /\
  metas out.1 = foldl record_meta (metas acc) trace /\
  errors out.1 = foldl record_error (errors acc) trace /\
  stdout out.1 = stdout acc ++ imap (fun k => print_line n (i + k)) trace /\
  warmups out.2 = warmups w ++ map Warmup symbols.
Proof.
  revert i acc w. induction symbols as [|sym rest IH]; intros i acc w.
  - simpl. by rewrite !app_nil_r.
  - simpl.
    pose proof (fetch_yahoo_chart_warmups sym rng interval false w) as Hw.
    destruct (fetch_yahoo_chart sym rng interval false w) as [r w1]. simpl in Hw.
    match goal with |- context [fetch_loop rest (S i) n rng interval ?a w1] =>
      specialize (IH (S i) a w1) end.
    cbv zeta in IH. destruct IH as (Hf & Hm & He & Hs & Hwarm).
    rewrite Hf, Hm, He, Hs, Hwarm, Hw. clear Hf Hm He Hs Hwarm Hw.
    rewrite imap_cons.
    assert (imap ((fun k => print_line n (i + k)) ∘ S)
                 (fetch_trace rest rng interval w1) =
            imap (fun k => print_line n (S i + k)) (fetch_trace rest rng interval w1))
      as ->.
    { apply imap_ext. intros k en _. simpl. f_equal. lia. }
    rewrite Nat.add_0_r, <- !app_assoc.
    destruct r as [[df meta]|e]; cbn [frames metas errors stdout fst snd];
      unfold print_line, entry_rows; simpl.
    + rewrite map_app, join_app. simpl. rewrite app_nil_r, <- !app_assoc.
      repeat split; rewrite <- ?app_assoc; reflexivity.
    + repeat split; rewrite <- ?app_assoc; reflexivity.
Qed.

End Batch.

(** ** The batch orchestrator: the claims *)

Section BatchClaims.
Context `{Pandas}.


End BatchClaims.



(* ===================================================================== *)
(** * Further properties of the persistence layer *)
(* ===================================================================== *)

Lemma filter_nil_Forall {A} (P : A -> Prop) `{forall x, Decision (P x)} (l : list A) :
  filter P l = [] -> Forall (fun x => ~ P x) l.
Proof.
  induction l as [|x l IH]; [constructor|].
  rewrite filter_cons. case_decide; [done|]. intros Hl. constructor; auto.
Qed.

Lemma length_upsert t tbl :
  length tbl <= length (upsert t tbl) <= S (length tbl).
Proof.
  destruct (upsert_cases t tbl) as [(k & _ & _ & Hmap) | [_ ->]].
  - apply (f_equal length) in Hmap. rewrite !length_map in Hmap. lia.
  - rewrite length_app. simpl. lia.
Qed.

Lemma length_executemany tuples tbl tbl' :
  executemany tuples tbl = Ok tbl' ->
  length tbl <= length tbl' <= length tbl + length tuples.
Proof.
  revert tbl. induction tuples as [|t rest IH]; intros tbl Hex.
  - injection Hex as <-. simpl. lia.
  - apply executemany_cons_inv in Hex as [_ Hrest].
    specialize (IH _ Hrest). pose proof (length_upsert t tbl). simpl. lia.
Qed.

(** Tuples whose keys are new and pairwise distinct are appended in order. *)
Lemma executemany_fresh tuples tbl tbl' :
  executemany tuples tbl = Ok tbl' ->
  NoDup (omap unique_key tuples) ->
  (forall k, k ∈ omap unique_key tuples -> k ∉ omap unique_key tbl) ->
  tbl' = tbl ++ tuples.
Proof.
  revert tbl. induction tuples as [|t rest IH]; intros tbl Hex Hnd Hfree.
  - injection Hex as <-. by rewrite app_nil_r.
  - apply executemany_cons_inv in Hex as [_ Hrest].
    assert (upsert t tbl = tbl ++ [t]) as Hup.
    { destruct (upsert_cases t tbl) as [(k & Hk & Hsome & _) | [_ Hup]]; [|done].
      exfalso. apply (Hfree k).
      - simpl. rewrite Hk. left.
      - destruct (decide (k ∈ omap unique_key tbl)) as [|Hnot]; [done|].
        apply lookup_key_None in Hnot. rewrite Hnot in Hsome. by destruct Hsome. }
    rewrite Hup in Hrest. rewrite (IH _ Hrest).
    + by rewrite <- app_assoc.
    + simpl in Hnd. destruct (unique_key t); [by apply NoDup_cons in Hnd as [_ ?] | done].
    + intros k Hk. rewrite omap_app. simpl. intros Hin.
      apply elem_of_app in Hin as [Hin|Hin].
      * apply (Hfree k); [|done]. simpl. destruct (unique_key t); [by right | done].
      * simpl in Hnd. destruct (unique_key t) as [k'|]; [|by apply elem_of_nil in Hin].
        apply list_elem_of_singleton in Hin as ->.
        by apply NoDup_cons in Hnd as [Hnot _].
Qed.

(** The first tuple that violates a NOT NULL constraint makes the statement
    raise IntegrityError. *)
Lemma executemany_integrity tuples tbl t :
  t ∈ tuples ->
  insert_checks t <> Ok tt ->
  exists what, executemany tuples tbl = Err (IntegrityError what).
Proof.
  revert tbl. induction tuples as [|t0 rest IH]; intros tbl Hin Hbad.
  - by apply elem_of_nil in Hin.
  - simpl. destruct (insert_checks t0) as [[]|e] eqn:Ht0; simpl.
    + apply elem_of_cons in Hin as [->|Hin]; [done|]. by apply IH.
    + unfold insert_checks in Ht0.
      destruct (Prices.ticker t0), (Prices.datetime_utc t0); try done;
        injection Ht0 as <-; eauto.
Qed.

Lemma executemany_Forall_tuples (P : Prices.row -> Prop) tuples tbl tbl' :
  executemany tuples tbl = Ok tbl' ->
  Forall P tbl ->
  Forall (fun t => P t /\ forall old, P old -> P (do_update old t)) tuples ->
  Forall P tbl'.
Proof.
  intros Hex Htbl Hall. revert tbl Hex Htbl.
  induction Hall as [|t rest [Ht Hupd] _ IH]; intros tbl Hex Htbl.
  - by injection Hex as <-.
  - apply executemany_cons_inv in Hex as [_ Hrest].
    eapply IH; [done|]. by apply upsert_Forall.
Qed.

Lemma NoDup_insert_or_replace new tbl :
  NoDup (map Runs.run_id tbl) ->
  NoDup (map Runs.run_id (insert_or_replace new tbl)).
Proof.
  intros Hnd. unfold insert_or_replace. rewrite map_app. simpl.
  apply NoDup_app. split; [|split; [|apply NoDup_singleton]].
  - induction tbl as [|r rest IH]; [constructor|].
    simpl in Hnd. apply NoDup_cons in Hnd as [Hr Hnd].
    rewrite filter_cons. case_decide; [|by apply IH].
    simpl. apply NoDup_cons. split; [|by apply IH].
    intros Hin. apply Hr. apply list_elem_of_fmap in Hin as (r' & -> & Hin).
    apply list_elem_of_filter in Hin as [_ Hin].
    apply list_elem_of_fmap. eauto.
  - intros id Hin Hnew. apply list_elem_of_singleton in Hnew as ->.
    apply list_elem_of_fmap in Hin as (r & Hid & Hin).
    apply list_elem_of_filter in Hin as [Hne _]. done.
Qed.

Lemma run_id_insert_or_replace new tbl id :
  id ∈ map Runs.run_id tbl -> id ∈ map Runs.run_id (insert_or_replace new tbl).
Proof.
  intros Hin. unfold insert_or_replace. rewrite map_app. apply elem_of_app.
  destruct (decide (id = Runs.run_id new)) as [->|Hne].
  - right. simpl. left.
  - left. apply list_elem_of_fmap in Hin as (r & -> & Hin).
    apply list_elem_of_fmap. exists r. split; [done|].
    by apply list_elem_of_filter.
Qed.

Section IngestFurther.
Context `{TzDb}.

(** X1.  Every database that [init_db] and calls of [ingest_prices] produce
    has these four properties: the non-NULL entries of the primary-key index
    of prices are distinct; no price row has a NULL ticker or datetime_utc;
    the run id of every price row has a row in the run log; and the run log
    has one row per run id. *)
Theorem reachable_invariant db :
  reachable db ->
  keys_unique (db_prices db) /\
  Forall (fun r => is_Some (Prices.ticker r) /\ is_Some (Prices.datetime_utc r))
         (db_prices db) /\
  Forall (fun r => Prices.run_id r ∈ logged_runs db) (db_prices db) /\
  NoDup (logged_runs db).
Proof.
  intros Hreach. split; [by apply reachable_keys_unique|].
  induction Hreach as [|env df rng interval run_id note db Hreach IH].
  - split; [constructor|]. split; constructor.
  - destruct IH as (Hnn & Hlog & Hnd).
    destruct (ingest_prices env df rng interval run_id note db) as [[id|e] db'] eqn:Hcall;
      simpl.
    2:{ apply ingest_prices_err in Hcall as ->. done. }
    apply ingest_prices_ok in Hcall as (_ & tuples & Hd & _ & Hex & Hruns).
    unfold logged_runs in *. rewrite Hruns.
    split; [|split; [|by apply NoDup_insert_or_replace]].
    + eapply (executemany_Forall _ tuples); [done | exact Hex | done |].
      apply executemany_checks in Hex. eapply Forall_impl; [exact Hex|].
      intros t. unfold insert_checks.
      destruct (Prices.ticker t), (Prices.datetime_utc t); try done; eauto.
    + eapply (executemany_Forall_tuples _ tuples); [exact Hex | |].
      * eapply Forall_impl; [exact Hlog|]. intros r. apply run_id_insert_or_replace.
      * apply d_db_ok in Hd as (strings & _ & _ & _ & _ & ->).
        rewrite Forall_map. apply Forall_forall. intros r _.
        assert (forall a, Prices.run_id (tuple_of df rng interval (strftime (now env)) id
                                           strings a) = id) as Hid.
        { intros a. unfold tuple_of. by destruct (strings (c_datetime a)) as [[? ?] ?]. }
        assert (id ∈ map Runs.run_id
                  (insert_or_replace
                     {| Runs.run_id := id; Runs.started_at := strftime (now env);
                        Runs.rng := rng; Runs.interval := interval;
                        Runs.n_rows :=
                          Z.of_nat (length (map (tuple_of df rng interval
                                                   (strftime (now env)) id strings)
                                                (rows df)));
                        Runs.note := note |} (db_runs db))) as Hin.
        { unfold insert_or_replace. rewrite map_app. apply elem_of_app. right. left. }
        split; [by rewrite Hid|]. intros old _. simpl. by rewrite Hid.
Qed.

(** X2.  [ingest_prices] returns only on a table that passes every check
    of the call: a table without a 'datetime' column of a datetime dtype,
    without one of ticker, open, high, low, close, volume and adjclose, with
    both 'range' and 'range_str' and a line, or with a line that lacks its
    ticker or its datetime, makes the call raise. *)
Theorem ingest_prices_checks env df rng interval run_id note db id db' :
  ingest_prices env df rng interval run_id note db = (Ok id, db') ->
  ingestible df.
Proof.
  unfold ingestible. intros Hcall.
  apply ingest_prices_ok in Hcall as (_ & tuples & Hd & Hb & Hex & _).
  apply d_db_ok in Hd as (strings & Hs & Hdt & Hmiss & Hadj & ->).
  split; [done|]. split; [by intros Hobj; rewrite Hobj in Hs|].
  split; [|split].
  - apply Forall_app. split; [|by repeat constructor].
    apply filter_nil_Forall in Hmiss. eapply Forall_impl; [exact Hmiss|].
    intros c Hc. simpl in Hc. by destruct (has_column df c).
  - intros Hr Hrs. unfold bindings_check in Hb. rewrite Hr, Hrs in Hb. simpl in Hb.
    destruct (rows df); [done | discriminate].
  - apply executemany_checks in Hex. rewrite Forall_map in Hex.
    eapply Forall_impl; [exact Hex|]. intros r. simpl.
    unfold insert_checks, tuple_of.
    destruct (dtype_datetime df); try discriminate; injection Hs as <-;
      destruct (c_ticker r), (c_datetime r); simpl; try done; eauto.
Qed.

(** X3.  A table that passes the column checks and has a line with a
    missing ticker or a missing datetime makes the call raise IntegrityError,
    and the database is as before: the lines upserted before the offending
    one are not kept. *)
Theorem ingest_prices_null_key_aborts env df rng interval run_id note db r :
  has_column df "datetime" = true ->
  dtype_datetime df <> ObjectDtype ->
  Forall (fun c => has_column df c = true) (REQUIRED ++ ["adjclose"]) ->
  has_column df "range" = false \/ has_column df "range_str" = false ->
  r ∈ rows df ->
  c_ticker r = None \/ c_datetime r = None ->
  exists what,
    ingest_prices env df rng interval run_id note db = (Err (IntegrityError what), db).
Proof.
  intros Hdt Hobj Hcols Hdup Hin Hbad.
  apply Forall_app in Hcols as [Hreq Hadj]. apply Forall_inv in Hadj; simpl in Hadj.
  assert (exists strings, datetime_strings (dtype_datetime df) = Ok strings /\
            forall t, (strings t).1.1 = strftime_ns t) as (strings & Hs & Hutc).
  { destruct (dtype_datetime df); [| |done]; eexists; (split; [done|]); done. }
  set (id := default (uuid4 env) run_id).
  set (tuples := map (tuple_of df rng interval (strftime (now env)) id strings) (rows df)).
  assert (d_db df rng interval (strftime (now env)) id = Ok tuples) as Hd.
  { unfold d_db. rewrite Hdt, Hs, Hadj. simpl.
    rewrite (filter_none _ REQUIRED); [done|].
    eapply Forall_impl; [exact Hreq|]. intros c Hc. rewrite Hc. simpl. tauto. }
  assert (bindings_check df tuples = Ok tt) as Hb.
  { unfold bindings_check. by destruct Hdup as [-> | ->]; rewrite ?andb_false_r. }
  destruct (executemany_integrity tuples (db_prices db)
              (tuple_of df rng interval (strftime (now env)) id strings r))
    as [what Hex].
  { subst tuples. apply list_elem_of_fmap. eauto. }
  { unfold insert_checks, tuple_of. specialize (Hutc (c_datetime r)).
    destruct (strings (c_datetime r)) as [[utc local] tr]. simpl in *. subst utc.
    destruct Hbad as [-> | ->]; [done|]. by destruct (c_ticker r). }
  exists what. unfold ingest_prices. fold id. rewrite Hd. simpl. rewrite Hb. simpl.
  by rewrite Hex.
Qed.

(** X4.  When the keys of the tuples of a call are pairwise distinct and
    none of them is in prices yet, the call appends the tuples to the table
    as they are, in the order of the input, and changes no other row. *)
Theorem ingest_prices_fresh_batch env df rng interval run_id note db id db' tuples :
  ingest_prices env df rng interval run_id note db = (Ok id, db') ->
  d_db df rng interval (strftime (now env)) id = Ok tuples ->
  NoDup (omap unique_key tuples) ->
  (forall k, k ∈ omap unique_key tuples -> lookup_key k (db_prices db) = None) ->
  db_prices db' = db_prices db ++ tuples.
Proof.
  intros Hcall Hd Hnd Hfree.
  apply ingest_prices_ok in Hcall as (_ & tuples' & Hd' & _ & Hex & _).
  rewrite Hd in Hd'. injection Hd' as <-.
  apply (executemany_fresh _ _ _ Hex Hnd).
  intros k Hk. apply lookup_key_None. by apply Hfree.
Qed.

(** X5.  A call that returns has removed no price row and has added at most
    one per line of the input. *)
Theorem ingest_prices_row_count env df rng interval run_id note db id db' :
  ingest_prices env df rng interval run_id note db = (Ok id, db') ->
  length (db_prices db) <= length (db_prices db')
    <= length (db_prices db) + length (rows df).
Proof.
  intros Hcall.
  apply ingest_prices_ok in Hcall as (_ & tuples & Hd & _ & Hex & _).
  apply d_db_ok in Hd as (strings & _ & _ & _ & _ & ->).
  apply length_executemany in Hex. by rewrite length_map in Hex.
Qed.

(** X6.  When the table has its own 'interval' column and a 'range' or
    'range_str' column, the [rng] and [interval] arguments reach the run log
    only: the outcome of the call and the prices table after it are the same
    for any other two arguments. *)
Theorem ingest_prices_table_columns_win env df rng interval rng' interval'
    run_id note db :
  has_column df "interval" = true ->
  has_column df "range" = true \/ has_column df "range_str" = true ->
  (ingest_prices env df rng interval run_id note db).1 =
    (ingest_prices env df rng' interval' run_id note db).1 /\
  db_prices (ingest_prices env df rng interval run_id note db).2 =
    db_prices (ingest_prices env df rng' interval' run_id note db).2.
Proof.
  intros Hi Hr.
  assert (forall a b, d_db df rng interval a b = d_db df rng' interval' a b) as Hd.
  { intros a b. unfold d_db. destruct (has_column df "datetime"); simpl; [|done].
    destruct (datetime_strings (dtype_datetime df)) as [strings|e]; simpl; [|done].
    destruct (bool_decide _); simpl; [|done].
    destruct (has_column df "adjclose"); simpl; [|done].
    f_equal. apply map_ext. intros r. unfold tuple_of. rewrite Hi.
    destruct (strings (c_datetime r)) as [[utc local] tr].
    by destruct Hr as [-> | ->]; destruct (has_column df "range"). }
  unfold ingest_prices. rewrite Hd.
  destruct (d_db df rng' interval' _ _) as [tuples|e]; [|done].
  destruct (bindings_check df tuples) as [[]|e]; simpl; [|done].
  destruct (executemany tuples (db_prices db)); done.
Qed.

End IngestFurther.

(* ===================================================================== *)
(** * Further properties of the fetcher *)
(* ===================================================================== *)

(** A truthy value makes a Series with at least one item. *)
Lemma Series_truthy v : truthy v = true -> 0 < index_length (Series v).1.
Proof.
  destruct v as [| b | z | q | s | items | members]; simpl; try done; try lia.
  - destruct items; [done | simpl; lia].
  - destruct members as [|[k x] members]; [done|]. intros _.
    rewrite length_map. unfold py_dict. rewrite length_map. unfold py_keys.
    rewrite length_reverse.
    assert (k ∈ remove_dups (reverse (map fst ((k, x) :: members)))) as Hin.
    { apply elem_of_remove_dups, elem_of_reverse. left. }
    destruct (remove_dups _); [by apply elem_of_nil in Hin | simpl; lia].
Qed.

Lemma locate_timestamps symbol data parts :
  locate symbol data = Ok parts -> truthy (p_timestamps parts) = true.
Proof.
  unfold locate.
  destruct (dict_get data "chart" _) as [chart|]; simpl; [|discriminate].
  destruct (dict_get chart "error" _) as [error|]; simpl; [|discriminate].
  destruct (truthy error); [discriminate|].
  destruct (dict_get chart "result" _) as [results|]; simpl; [|discriminate].
  destruct (index0 _) as [result|]; simpl; [|discriminate].
  destruct (truthy result); simpl; [|discriminate].
  destruct (dict_get result "meta" _) as [meta0|]; simpl; [|discriminate].
  destruct (dict_get (py_or meta0 _) "timezone" _) as [tz|]; simpl; [|discriminate].
  destruct (dict_get result "timestamp" _) as [ts0|]; simpl; [|discriminate].
  destruct (truthy (py_or ts0 (JArr []))) eqn:Hts; simpl; [|discriminate].
  destruct (dict_get result "indicators" _) as [ind0|]; simpl; [|discriminate].
  destruct (dict_get (py_or ind0 _) "quote" _) as [quote0|]; simpl; [|discriminate].
  destruct (index0 _) as [quote1|]; simpl; [|discriminate].
  destruct (dict_get (py_or ind0 _) "adjclose" _) as [adj0|]; simpl; [|discriminate].
  match goal with |- (do _ <- ?b ; _) = _ -> _ =>
    destruct b as [adj_block|]; simpl; [|discriminate] end.
  destruct (dict_get adj_block "adjclose" _) as [adj_list|]; simpl; [|discriminate].
  by intros [= <-].
Qed.



Section FrameFurther.
Context `{Pandas}.

(** The table of a fetch that returns: its columns, the dtype of 'datetime',
    and the three tags of every line. *)
Lemma fetch_yahoo_chart_shape symbol rng interval include_prepost w df meta w' :
  fetch_yahoo_chart symbol rng interval include_prepost w = (Ok (df, meta), w') ->
  exists data parts,
    locate symbol data = Ok parts /\
    build_frame symbol rng interval parts = Ok df /\
    columns df = FRAME_COLUMNS /\
    dtype_datetime df = DatetimeTZ "UTC" /\
    Forall (fun r => c_ticker r = Some symbol /\ c_range r = Some rng /\
                     c_interval r = Some interval) (rows df).
Proof.
  rewrite fetch_yahoo_chart_spec. cbv zeta. intros Hcall.
  assert (exists data, parse_chart symbol rng interval data = Ok (df, meta))
    as (data & Hparse).
  { match type of Hcall with (match ?y with _ => _ end, _) = _ =>
      destruct y as [data|]; [|by injection Hcall] end.
    exists data. by destruct data; injection Hcall. }
  apply parse_chart_ok in Hparse as (parts & Hloc & Hframe & _).
  exists data, parts. split; [done|]. split; [done|].
  pose proof (build_frame_ok _ _ _ _ _ Hframe)
    as (use & lines & _ & Hperm & _ & _ & Htags).
  apply build_frame_inv in Hframe
    as (seconds & dts & open0 & open & high0 & high & low0 & low & close0 & close &
        volume0 & volume & use' & adjclose & _ & _ & _ & _ & _ & _ & _ & _ & _ & _ & ->).
  split; [done|]. split; [done|]. simpl in *. by rewrite Hperm.
Qed.

Lemma build_frame_nonempty symbol rng interval parts df :
  truthy (p_timestamps parts) = true ->
  build_frame symbol rng interval parts = Ok df ->
  0 < length (rows df).
Proof.
  intros Htrue Hframe.
  apply build_frame_ok in Hframe as (use & lines & _ & Hperm & Hlen & _).
  rewrite Hperm, Hlen. by apply Series_truthy.
Qed.

(** X10.  A fetch that returns gives a table with at least one line: a
    response without timestamps is an error, never an empty table. *)
Theorem fetch_yahoo_chart_nonempty symbol rng interval include_prepost w df meta w' :
  fetch_yahoo_chart symbol rng interval include_prepost w = (Ok (df, meta), w') ->
  0 < length (rows df).
Proof.
  intros Hcall.
  apply fetch_yahoo_chart_shape in Hcall as (data & parts & Hloc & Hframe & _).
  apply locate_timestamps in Hloc. by eapply build_frame_nonempty.
Qed.

(** The cells of a quote column given as an array, in a table indexed by
    position. *)
Lemma array_column_by_position n items cells i :
  numeric_column (RangeIndex n) (JArr items) = Ok cells ->
  i < n ->
  exists numbers,
    to_numeric items = Ok numbers /\
    cell cells i = if decide (n <= length items) then default None (numbers !! i)
                   else float64 <$> default None (numbers !! i).
Proof.
  intros (numbers & Hnum & Hlen & ->)%numeric_column_ok Hi. simpl in *.
  exists numbers. split; [done|]. unfold cell.
  by rewrite (reindex_by_position _ _ _ _ Hlen Hi).
Qed.

(** In a table indexed by keys, a column given as an array is NaN in every
    line. *)
Lemma array_column_by_key keys items cells i :
  numeric_column (Labels keys) (JArr items) = Ok cells -> cell cells i = None.
Proof.
  intros (numbers & _ & _ & ->)%numeric_column_ok. simpl. unfold cell.
  pose proof (reindex_other_kind (RangeIndex (length items)) numbers (Labels keys) I)
    as Hall.
  destruct (reindex _ _ _ !! i) as [c|] eqn:Hc; [|done]. simpl.
  rewrite Forall_forall in Hall. apply Hall. by eapply list_elem_of_lookup_2.
Qed.

(** X12.  The quote columns are bound to the timestamps by position before
    the table is sorted.  In a table indexed by position (the timestamps are
    an array or a single value), a column the provider gives as an array is
    converted by [pd.to_numeric], and the line made from the [i]-th timestamp
    holds the [i]-th converted value: as converted when the array has a value
    for every line, as a float64 when the array is shorter, and NaN past its
    end; values past the last timestamp are dropped.  In a table indexed by
    keys (the timestamps are a dict) such a column is NaN in every line. *)
Theorem quote_columns_by_position symbol rng interval parts df :
  build_frame symbol rng interval parts = Ok df ->
  exists seconds dts lines,
    astype_int64 (Series (p_timestamps parts)).2 = Ok seconds /\
    to_datetime_series seconds = Ok dts /\
    rows df ≡ₚ lines /\
    length lines = index_length (Series (p_timestamps parts)).1 /\
    (forall i r, lines !! i = Some r -> dts !! i = Some (c_datetime r)) /\
    forall col field items,
      (col, field) ∈ [("open", c_open); ("high", c_high); ("low", c_low);
                      ("close", c_close); ("volume", c_volume)] ->
      dict_get (p_quote_block parts) col (JArr []) = Ok (JArr items) ->
      (forall n,
          (Series (p_timestamps parts)).1 = RangeIndex n ->
          exists numbers,
            to_numeric items = Ok numbers /\
            forall i r,
              lines !! i = Some r ->
              field r = if decide (n <= length items) then default None (numbers !! i)
                        else float64 <$> default None (numbers !! i)) /\
      (forall keys,
          (Series (p_timestamps parts)).1 = Labels keys ->
          Forall (fun r => field r = None) lines).
Proof.
  intros Hframe.
  apply build_frame_inv in Hframe
    as (seconds & dts & open0 & open & high0 & high & low0 & low & close0 & close &
        volume0 & volume & use & adjclose & Hsec & Hdts & Hlen &
        [Ho0 Ho] & [Hh0 Hh] & [Hl0 Hl] & [Hc0 Hc] & [Hv0 Hv] & _ & _ & ->).
  exists seconds, dts. eexists. split; [done|]. split; [done|].
  split; [apply sort_values_Permutation|].
  split; [by rewrite length_frame_lines|].
  set (lines := frame_lines _ _ _ _ _ _ _ _ _ _).
  assert (forall i r, lines !! i = Some r ->
            i < length dts /\ dts !! i = Some (c_datetime r) /\
            c_open r = cell open i /\ c_high r = cell high i /\
            c_low r = cell low i /\ c_close r = cell close i /\
            c_volume r = cell volume i) as Hline.
  { intros i r Hr. subst lines. unfold frame_lines in Hr.
    rewrite list_lookup_imap in Hr.
    destruct (dts !! i) as [t|] eqn:Ht; [|done].
    apply lookup_lt_Some in Ht. by injection Hr as <-. }
  split; [intros i r Hr; by destruct (Hline i r Hr) as (_ & ? & _)|].
  assert (forall field cells items,
            (forall i r, lines !! i = Some r -> field r = cell cells i) ->
            numeric_column (Series (p_timestamps parts)).1 (JArr items) = Ok cells ->
            (forall n,
                (Series (p_timestamps parts)).1 = RangeIndex n ->
                exists numbers,
                  to_numeric items = Ok numbers /\
                  forall i r,
                    lines !! i = Some r ->
                    field r = if decide (n <= length items)
                              then default None (numbers !! i)
                              else float64 <$> default None (numbers !! i)) /\
            (forall keys,
                (Series (p_timestamps parts)).1 = Labels keys ->
                Forall (fun r => field r = None) lines)) as Hcolumn.
  { intros field cells items Hfield Hcells. split.
    - intros n Hix. rewrite Hix in Hcells, Hlen. simpl in Hlen.
      pose proof Hcells as (numbers & Hnum & _)%numeric_column_ok. simpl in Hnum.
      exists numbers. split; [done|]. intros i r Hr.
      destruct (Hline i r Hr) as (Hi & _). rewrite Hlen in Hi.
      rewrite (Hfield i r Hr).
      destruct (array_column_by_position _ _ _ i Hcells Hi) as (numbers' & Hnum' & Hcell).
      rewrite Hnum in Hnum'. by injection Hnum' as <-.
    - intros keys Hix. rewrite Hix in Hcells. apply Forall_lookup. intros i r Hr.
      rewrite (Hfield i r Hr). by eapply array_column_by_key. }
  intros col field items Hin Hget.
  repeat (apply elem_of_cons in Hin as [[= -> ->]|Hin];
          [match goal with
           | Hg : dict_get _ ?c _ = Ok ?v0, Hn : numeric_column _ ?v0 = Ok ?cells |- _ =>
               rewrite Hget in Hg; injection Hg as <-;
               apply (Hcolumn _ cells items); [|exact Hn];
               intros i r Hr; by destruct (Hline i r Hr) as (_ & _ & ? & ? & ? & ? & ?)
           end|]).
  by apply elem_of_nil in Hin.
Qed.




(** The tables the loop keeps are those of the fetches that returned. *)
Lemma fetch_loop_frames symbols i n rng interval acc w :
  frames (fetch_loop symbols i n rng interval acc w).1 =
  frames acc ++
    omap (fun en : entry => match en.2 with Ok (df, _) => Some df | Err _ => None end)
         (fetch_trace symbols rng interval w).
Proof.
  revert i acc w. induction symbols as [|sym rest IH]; intros i acc w; simpl.
  - by rewrite app_nil_r.
  - destruct (fetch_yahoo_chart sym rng interval false w) as [r w1].
    rewrite IH. destruct r as [[df meta]|e]; simpl; [|done].
    by rewrite <- app_assoc.
Qed.

Lemma record_meta_empty (trace : list entry) m :
  foldl record_meta m trace = ∅ <-> m = ∅ /\ Forall raised trace.
Proof.
  revert m. induction trace as [|[sym r] rest IH]; intros m; simpl.
  - split; [by intros -> | by intros [-> _]].
  - rewrite IH. unfold record_meta, raised. simpl.
    destruct r as [[df meta]|e]; simpl.
    + split.
      * intros [Hins _]. by apply insert_non_empty in Hins.
      * intros [_ Hall]. apply Forall_cons in Hall as [[] _].
    + split.
      * intros [-> Hall]. split; [done|]. by constructor.
      * intros [-> Hall]. split; [done|]. by apply Forall_cons in Hall as [_ ?].
Qed.

Lemma fetch_batch_frames symbols rng interval w :
  let out := (fetch_batch symbols rng interval w).1 in
  let trace := fetch_trace symbols rng interval w in
  out_metas out = foldl record_meta ∅ trace /\
  out_errors out = foldl record_error ∅ trace /\
  rows (df_all out) = mjoin (map entry_rows trace) /\
  (Forall raised trace -> df_all out = EMPTY_TABLE) /\
  (~ Forall raised trace ->
   columns (df_all out) = FRAME_COLUMNS /\
   dtype_datetime (df_all out) = DatetimeTZ "UTC").
Proof.
  intros out trace. subst out. unfold fetch_batch.
  pose proof (fetch_loop_spec rng interval symbols 1 (length symbols)
                {| frames := []; metas := ∅; errors := ∅; stdout := [] |} w) as Hspec.
  pose proof (fetch_loop_frames symbols 1 (length symbols) rng interval
                {| frames := []; metas := ∅; errors := ∅; stdout := [] |} w) as Hfr.
  cbv zeta in Hspec. fold trace in Hspec, Hfr.
  destruct (fetch_loop symbols 1 (length symbols) rng interval _ w) as [acc w'].
  cbn [fst snd frames metas errors stdout] in Hspec, Hfr.
  destruct Hspec as (Hf & Hm & He & _).
  cbn [fst snd df_all out_metas out_errors printed].
  split; [done|]. split; [done|]. split.
  { case_bool_decide as Hnil; [rewrite Hnil in Hf|]; exact Hf. }
  assert (frames acc = [] <-> Forall raised trace) as Hiff.
  { rewrite Hfr. simpl. clear. induction trace as [|[sym r] rest IH]; simpl.
    - split; [constructor | done].
    - unfold raised at 1. destruct r as [[df meta]|e]; simpl.
      + split; [done|]. intros Hall. by apply Forall_cons in Hall as [[] _].
      + rewrite IH. split; [by constructor|]. intros Hall.
        by apply Forall_cons in Hall as [_ ?]. }
  split.
  - intros Hall. apply Hiff in Hall. by rewrite bool_decide_eq_true_2.
  - intros Hsome. rewrite bool_decide_eq_false_2; [done|]. by rewrite Hiff.
Qed.

Lemma fetch_trace_shape symbols rng interval w sym df meta :
  (sym, Ok (df, meta)) ∈ fetch_trace symbols rng interval w ->
  0 < length (rows df) /\
  Forall (fun r => c_ticker r = Some sym /\ c_range r = Some rng /\
                   c_interval r = Some interval) (rows df).
Proof.
  revert w. induction symbols as [|s rest IH]; intros w; simpl.
  - intros Hin. by apply elem_of_nil in Hin.
  - destruct (fetch_yahoo_chart s rng interval false w) as [r w1] eqn:Hcall.
    intros [[= -> <-]|Hin]%elem_of_cons; [|by eapply IH].
    apply fetch_yahoo_chart_shape in Hcall as (? & ? & Hloc & Hframe & _ & _ & ?).
    split; [|done]. apply locate_timestamps in Hloc. by eapply build_frame_nonempty.
Qed.


End FrameFurther.

(* ===================================================================== *)
(** * From the fetcher to the database *)
(* ===================================================================== *)

Lemma entry_rows_raised (trace : list entry) :
  Forall raised trace -> mjoin (map entry_rows trace) = [].
Proof.
  intros Hall. induction Hall as [|[sym res] rest Hr _ IH]; [done|].
  simpl. rewrite IH, app_nil_r. unfold raised in Hr. unfold entry_rows.
  simpl in *. by destruct res as [[df meta]|e].
Qed.

Lemma some_fetched (trace : list entry) :
  ~ Forall raised trace -> exists sym df meta, (sym, Ok (df, meta)) ∈ trace.
Proof.
  induction trace as [|[sym res] rest IH]; intros Hnot.
  - destruct Hnot. constructor.
  - destruct res as [[df meta]|e].
    + exists sym, df, meta. left.
    + destruct IH as (sym' & df & meta & Hin).
      * intros Hall. apply Hnot. by constructor.
      * exists sym', df, meta. by right.
Qed.

Section FetchThenIngest.
Context `{Pandas} `{TzDb}.

(** X8.  When [ingest_prices] returns on the table of a batch, at least
    one symbol was fetched, and one tuple per line of the table was upserted,
    each carrying a requested symbol as ticker, the range and the interval of
    the fetch (not those of the call) and the run id the call returns. *)
Theorem fetch_batch_then_ingest symbols rng interval w env rng' interval'
    run_id note db id db' :
  let out := (fetch_batch symbols rng interval w).1 in
  ingest_prices env (df_all out) rng' interval' run_id note db = (Ok id, db') ->
  out_metas out <> ∅ /\
  exists tuples,
    executemany tuples (db_prices db) = Ok (db_prices db') /\
    length tuples = length (rows (df_all out)) /\
    0 < length tuples /\
    Forall (fun t => (exists sym, sym ∈ symbols /\ Prices.ticker t = Some sym) /\
                     Prices.range_str t = Some rng /\
                     Prices.interval t = Some interval /\
                     Prices.run_id t = id) tuples.
Proof.
  intros out Hcall.
  destruct (fetch_batch_frames symbols rng interval w)
    as (Hm & _ & Hrows & Hnone & Hshape).
  fold out in Hm, Hrows, Hnone, Hshape.
  apply ingest_prices_ok in Hcall as (_ & tuples & Hd & _ & Hex & _).
  apply d_db_ok in Hd as (strings & Hs & _ & _ & _ & ->).
  assert (~ Forall raised (fetch_trace symbols rng interval w)) as Hsome.
  { intros Hall. rewrite (Hnone Hall) in Hs. discriminate. }
  destruct (Hshape Hsome) as [Hcols Hdtype].
  assert (exists sym df meta,
            (sym, Ok (df, meta)) ∈ fetch_trace symbols rng interval w)
    as (sym0 & df0 & meta0 & Hin0).
  { by apply some_fetched. }
  assert (Forall (fun r => (exists sym, sym ∈ symbols /\ c_ticker r = Some sym) /\
                           c_range r = Some rng /\ c_interval r = Some interval)
                 (rows (df_all out))) as Htags.
  { rewrite Hrows. apply Forall_forall. intros r Hr.
    apply list_elem_of_join in Hr as (l & Hr & Hl).
    apply list_elem_of_fmap in Hl as ([sym res] & -> & Hin).
    unfold entry_rows in Hr. simpl in Hr.
    destruct res as [[df meta]|e]; [|by apply elem_of_nil in Hr].
    pose proof (fetch_trace_shape _ _ _ _ _ _ _ Hin) as [_ Hall].
    rewrite Forall_forall in Hall. destruct (Hall r Hr) as (Ht & Hrg & Hi).
    split; [|done]. exists sym. split; [|done].
    rewrite <- (fetch_trace_symbols rng interval symbols w).
    apply list_elem_of_fmap. by exists (sym, Ok (df, meta)). }
  split.
  { rewrite Hm. intros Hempty. apply Hsome. by apply record_meta_empty in Hempty as [_ ?]. }
  eexists. split; [exact Hex|]. rewrite length_map. split; [done|]. split.
  { rewrite Hrows.
    pose proof (fetch_trace_shape _ _ _ _ _ _ _ Hin0) as [Hpos _].
    assert (length (rows df0) <=
            length (mjoin (map entry_rows (fetch_trace symbols rng interval w)))) as Hle.
    { apply submseteq_length, sublist_submseteq.
      clear -Hin0. induction (fetch_trace symbols rng interval w) as [|en rest IH].
      - by apply elem_of_nil in Hin0.
      - simpl. apply elem_of_cons in Hin0 as [<-|Hin0].
        + unfold entry_rows at 1. simpl. by apply sublist_inserts_r.
        + apply sublist_inserts_l. by apply IH. }
    lia. }
  assert (forall c, has_column (df_all out) c = bool_decide (c ∈ FRAME_COLUMNS)) as Hcol.
  { intros c. unfold has_column. by rewrite Hcols. }
  rewrite Forall_map. eapply Forall_impl; [exact Htags|].
  intros r (Hsym & Hrg & Hi). simpl. unfold tuple_of. rewrite !Hcol.
  destruct (strings (c_datetime r)) as [[utc local] tr]. simpl.
  assert (bool_decide ("range" ∈ FRAME_COLUMNS) = true) as -> by by vm_compute.
  assert (bool_decide ("interval" ∈ FRAME_COLUMNS) = true) as -> by by vm_compute.
  done.
Qed.

(** X11.  A batch has no line exactly when no symbol was fetched (also
    for an empty list of symbols).  The table is then the empty table with
    object columns, every symbol has an error entry, and [ingest_prices]
    raises on it at the datetime conversion and writes nothing. *)
Theorem fetch_batch_nothing_fetched symbols rng interval w env rng' interval'
    run_id note db :
  let out := (fetch_batch symbols rng interval w).1 in
  (rows (df_all out) = [] <-> out_metas out = ∅) /\
  (out_metas out = ∅ ->
   df_all out = EMPTY_TABLE /\
   dom (out_errors out) = list_to_set symbols /\
   ingest_prices env (df_all out) rng' interval' run_id note db =
     (Err NotDatetimeLike, db)).
Proof.
  intros out.
  destruct (fetch_batch_frames symbols rng interval w)
    as (Hm & He & Hrows & Hnone & _).
  fold out in Hm, He, Hrows, Hnone.
  assert (out_metas out = ∅ <-> Forall raised (fetch_trace symbols rng interval w))
    as Hiff.
  { rewrite Hm, record_meta_empty. tauto. }
  split.
  - rewrite Hiff, Hrows. split.
    + intros Hnil. apply Forall_forall. intros [sym res] Hin. unfold raised. simpl.
      destruct res as [[df meta]|e]; [|done].
      pose proof (fetch_trace_shape _ _ _ _ _ _ _ Hin) as [Hpos _].
      assert (rows df ⊆ mjoin (map entry_rows (fetch_trace symbols rng interval w)))
        as Hsub.
      { intros r Hr. apply list_elem_of_join. exists (rows df). split; [done|].
        apply list_elem_of_fmap. by exists (sym, Ok (df, meta)). }
      rewrite Hnil in Hsub. destruct (rows df) as [|r rest]; [simpl in Hpos; lia|].
      specialize (Hsub r). exfalso. eapply not_elem_of_nil, Hsub. left.
    + apply entry_rows_raised.
  - intros Hempty. pose proof Hempty as Hall. apply Hiff in Hall.
    split; [by apply Hnone|]. split.
    + pose proof (record_dom (fetch_trace symbols rng interval w) ∅ ∅) as Hdom.
      rewrite <- Hm, <- He, Hempty, fetch_trace_symbols in Hdom.
      set_solver.
    + rewrite (Hnone Hall). unfold ingest_prices, d_db.
      assert (has_column EMPTY_TABLE "datetime" = true) as -> by by vm_compute.
      done.
Qed.

End FetchThenIngest.

(* ===================================================================== *)
(** * Further properties: closed runs *)
(* ===================================================================== *)

Section FurtherRuns.
#[local] Existing Instance fixed_tz.
#[local] Existing Instance pd.

Lemma reachable_invariant_witness :
  let db := snd (ingest_prices env2 batch_null_interval "60d" "1d" None None
                   (snd (ingest_prices env1 batch_utc "12d" "5m" None None
                           (init_db None)))) in
  reachable db /\
  keys_unique (db_prices db) /\
  Forall (fun r => is_Some (Prices.ticker r) /\ is_Some (Prices.datetime_utc r))
         (db_prices db) /\
  Forall (fun r => Prices.run_id r ∈ logged_runs db) (db_prices db) /\
  NoDup (logged_runs db).
Proof.
  intros db.
  assert (reachable db) as Hreach by (do 2 apply reachable_ingest; apply reachable_init).
  split; [exact Hreach|]. exact (reachable_invariant db Hreach).
Defined.

Lemma ingest_prices_checks_witness :
  let db := {| db_runs := []; db_prices := [stored_bar] |} in
  let db' := snd (ingest_prices env2 batch_next "60d" "5m" None None db) in
  ingest_prices env2 batch_next "60d" "5m" None None db = (Ok "run-2", db') /\
  ingestible batch_next.
Proof.
  intros db db'.
  assert (ingest_prices env2 batch_next "60d" "5m" None None db = (Ok "run-2", db'))
    as Hcall by (vm_compute; reflexivity).
  split; [exact Hcall|].
  exact (ingest_prices_checks env2 batch_next "60d" "5m" None None db "run-2" db' Hcall).
Defined.

Lemma ingest_prices_null_key_aborts_witness :
  has_column batch_null_ticker "datetime" = true /\
  nameless_bar ∈ rows batch_null_ticker /\
  c_ticker nameless_bar = None /\
  exists what,
    ingest_prices env2 batch_null_ticker "12d" "5m" None None
      {| db_runs := []; db_prices := [stored_bar] |} =
    (Err (IntegrityError what), {| db_runs := []; db_prices := [stored_bar] |}).
Proof.
  assert (has_column batch_null_ticker "datetime" = true) as Hdt
    by (vm_compute; reflexivity).
  assert (dtype_datetime batch_null_ticker <> ObjectDtype) as Hobj by discriminate.
  assert (Forall (fun c => has_column batch_null_ticker c = true)
                 (REQUIRED ++ ["adjclose"])) as Hcols
    by (repeat constructor; vm_compute; reflexivity).
  assert (has_column batch_null_ticker "range" = false \/
          has_column batch_null_ticker "range_str" = false) as Hdup
    by (left; vm_compute; reflexivity).
  assert (nameless_bar ∈ rows batch_null_ticker) as Hin
    by (apply list_elem_of_further, list_elem_of_here).
  assert (c_ticker nameless_bar = None \/ c_datetime nameless_bar = None) as Hbad
    by (left; reflexivity).
  split; [exact Hdt|]. split; [exact Hin|]. split; [reflexivity|].
  exact (ingest_prices_null_key_aborts env2 batch_null_ticker "12d" "5m" None None
           {| db_runs := []; db_prices := [stored_bar] |} nameless_bar
           Hdt Hobj Hcols Hdup Hin Hbad).
Defined.

Lemma ingest_prices_fresh_batch_witness :
  let db := {| db_runs := []; db_prices := [stored_bar] |} in
  let db' := snd (ingest_prices env2 batch_next "60d" "5m" None None db) in
  let tuples := map (tuple_of batch_next "60d" "5m" (strftime (now env2)) "run-2"
                       (fun t => (strftime_ns t, strftime_ns (wall_clock "UTC" t),
                                  strftime_ns (wall_clock TZ_ISTANBUL t))))
                    (rows batch_next) in
  ingest_prices env2 batch_next "60d" "5m" None None db = (Ok "run-2", db') /\
  d_db batch_next "60d" "5m" (strftime (now env2)) "run-2" = Ok tuples /\
  length tuples = 1 /\
  db_prices db' = db_prices db ++ tuples.
Proof.
  intros db db' tuples.
  assert (ingest_prices env2 batch_next "60d" "5m" None None db = (Ok "run-2", db'))
    as Hcall by (vm_compute; reflexivity).
  assert (d_db batch_next "60d" "5m" (strftime (now env2)) "run-2" = Ok tuples) as Hd
    by (vm_compute; reflexivity).
  assert (NoDup (omap unique_key tuples)) as Hnd
    by (apply (bool_decide_unpack _); vm_compute; exact I).
  assert (forall k, k ∈ omap unique_key tuples -> lookup_key k (db_prices db) = None)
    as Hfree.
  { intros k Hk. apply list_elem_of_singleton in Hk as ->. vm_compute. reflexivity. }
  split; [exact Hcall|]. split; [exact Hd|]. split; [reflexivity|].
  exact (ingest_prices_fresh_batch env2 batch_next "60d" "5m" None None db "run-2" db'
           tuples Hcall Hd Hnd Hfree).
Defined.

Lemma ingest_prices_row_count_witness :
  let db := {| db_runs := []; db_prices := [stored_bar] |} in
  let db' := snd (ingest_prices env2 batch_utc_revised "60d" "5m" None None db) in
  ingest_prices env2 batch_utc_revised "60d" "5m" None None db = (Ok "run-2", db') /\
  length (db_prices db) <= length (db_prices db')
    <= length (db_prices db) + length (rows batch_utc_revised).
Proof.
  intros db db'.
  assert (ingest_prices env2 batch_utc_revised "60d" "5m" None None db =
          (Ok "run-2", db')) as Hcall by (vm_compute; reflexivity).
  split; [exact Hcall|].
  exact (ingest_prices_row_count env2 batch_utc_revised "60d" "5m" None None db
           "run-2" db' Hcall).
Defined.

Lemma ingest_prices_table_columns_win_witness :
  let db := {| db_runs := []; db_prices := [stored_bar] |} in
  has_column batch_own_range "interval" = true /\
  has_column batch_own_range "range" = true /\
  (ingest_prices env2 batch_own_range "12d" "5m" None None db).1 =
    (ingest_prices env2 batch_own_range "60d" "1h" None None db).1 /\
  db_prices (ingest_prices env2 batch_own_range "12d" "5m" None None db).2 =
    db_prices (ingest_prices env2 batch_own_range "60d" "1h" None None db).2.
Proof.
  intros db.
  assert (has_column batch_own_range "interval" = true) as Hi
    by (vm_compute; reflexivity).
  assert (has_column batch_own_range "range" = true) as Hr
    by (vm_compute; reflexivity).
  split; [exact Hi|]. split; [exact Hr|].
  exact (ingest_prices_table_columns_win env2 batch_own_range "12d" "5m" "60d" "1h"
           None None db Hi (or_introl Hr)).
Defined.

Lemma fetch_yahoo_chart_nonempty_witness :
  let w' := {| server := server (warmup_down ragged_body);
               sent := [Warmup "A";
                        Chart "query1.finance.yahoo.com" "A" "12d" "5m" false] |} in
  fetch_yahoo_chart "A" "12d" "5m" false (warmup_down ragged_body) =
    (Ok (ragged_table, JObj []), w') /\
  0 < length (rows ragged_table).
Proof.
  intros w'.
  assert (fetch_yahoo_chart "A" "12d" "5m" false (warmup_down ragged_body) =
          (Ok (ragged_table, JObj []), w')) as Hcall by (vm_compute; reflexivity).
  split; [exact Hcall|].
  exact (fetch_yahoo_chart_nonempty "A" "12d" "5m" false (warmup_down ragged_body)
           ragged_table (JObj []) w' Hcall).
Defined.

Lemma quote_columns_by_position_witness :
  locate "A" ragged_body = Ok ragged_parts /\
  build_frame "A" "12d" "5m" ragged_parts = Ok ragged_table /\
  exists seconds dts lines,
    astype_int64 (Series (p_timestamps ragged_parts)).2 = Ok seconds /\
    to_datetime_series seconds = Ok dts /\
    rows ragged_table ≡ₚ lines /\
    length lines = index_length (Series (p_timestamps ragged_parts)).1 /\
    (forall i r, lines !! i = Some r -> dts !! i = Some (c_datetime r)) /\
    forall col field items,
      (col, field) ∈ [("open", c_open); ("high", c_high); ("low", c_low);
                      ("close", c_close); ("volume", c_volume)] ->
      dict_get (p_quote_block ragged_parts) col (JArr []) = Ok (JArr items) ->
      (forall n,
          (Series (p_timestamps ragged_parts)).1 = RangeIndex n ->
          exists numbers,
            to_numeric items = Ok numbers /\
            forall i r,
              lines !! i = Some r ->
              field r = if decide (n <= length items) then default None (numbers !! i)
                        else float64 <$> default None (numbers !! i)) /\
      (forall keys,
          (Series (p_timestamps ragged_parts)).1 = Labels keys ->
          Forall (fun r => field r = None) lines).
Proof.
  assert (build_frame "A" "12d" "5m" ragged_parts = Ok ragged_table) as Hframe
    by (vm_compute; reflexivity).
  split; [vm_compute; reflexivity|]. split; [exact Hframe|].
  exact (quote_columns_by_position "A" "12d" "5m" ragged_parts ragged_table Hframe).
Defined.


Lemma fetch_batch_then_ingest_witness :
  let out := (fetch_batch ["A"; "B"; "C"] "12d" "5m" (b_unknown example_body)).1 in
  let db' := snd (ingest_prices env1 (df_all out) "60d" "1h" None None (init_db None)) in
  ingest_prices env1 (df_all out) "60d" "1h" None None (init_db None) =
    (Ok "run-1", db') /\
  out_metas out <> ∅ /\
  exists tuples,
    executemany tuples (db_prices (init_db None)) = Ok (db_prices db') /\
    length tuples = length (rows (df_all out)) /\
    0 < length tuples /\
    Forall (fun t => (exists sym, sym ∈ ["A"; "B"; "C"] /\ Prices.ticker t = Some sym) /\
                     Prices.range_str t = Some "12d" /\
                     Prices.interval t = Some "5m" /\
                     Prices.run_id t = "run-1") tuples.
Proof.
  intros out db'.
  assert (ingest_prices env1 (df_all out) "60d" "1h" None None (init_db None) =
          (Ok "run-1", db')) as Hcall by (vm_compute; reflexivity).
  split; [exact Hcall|].
  exact (fetch_batch_then_ingest ["A"; "B"; "C"] "12d" "5m" (b_unknown example_body)
           env1 "60d" "1h" None None (init_db None) "run-1" db' Hcall).
Defined.

End FurtherRuns.
